(** * little_science_utilities: a shallow embedding of [themes.py] and [utils.py]

    The style registry and the [Styles] context manager, the global
    [matplotlib.rcParams] they act on, [ColorScheme.get_defaults],
    [fixed_size_subplots], and the [ScienceLogger] of [utils.py] with the
    file system and the [logging] registry it touches. *)

From Stdlib Require Import ZArith QArith Qminmax Qround Lqa Ascii.
From stdpp Require Import base gmap strings list.

(** Python exceptions raised by the modelled code. *)
Inductive exc :=
| KeyError
| IndexError
| ValueError
| AssertionError
| AttributeError
| FileNotFoundError
| IsADirectoryError
| ZeroDivisionError
| FileExistsError
| NotADirectoryError.

(** Values stored in a style dictionary / in [rcParams] (numbers,
    strings, lists of strings, booleans). *)
Inductive rcval :=
| RInt (z : Z)
| RStr (s : string)
| RStrList (l : list string)
| RBool (b : bool).

(** ** Style dictionaries and the [Styles] constructor (themes.py) *)
Module Themes.

(** [{**a, **b}]: start from [a], the keys of [b] overwrite.  stdpp's
    [∪] is left-biased, so this is [b ∪ a]. *)
Definition py_merge (a b : gmap string rcval) : gmap string rcval := b ∪ a.

(** [self.__styles__[s]]: a missing key raises [KeyError]. *)
Definition lookup_style (registry : gmap string (gmap string rcval)) (s : string)
  : exc + gmap string rcval :=
  match registry !! s with
  | Some d => inr d
  | None => inl KeyError
  end.

(** [for style_ in style: _style = {**self.__styles__[style_], **_style}] *)
Fixpoint merge_loop (registry : gmap string (gmap string rcval))
    (style : list string) (_style : gmap string rcval) : exc + gmap string rcval :=
  match style with
  | [] => inr _style
  | style_ :: rest =>
      match lookup_style registry style_ with
      | inl e => inl e
      | inr d => merge_loop registry rest (py_merge d _style)
      end
  end.

(** [Styles.__init__(self, *style)]; the result is [self.theme]. *)
Definition Styles_init (registry : gmap string (gmap string rcval))
    (style : list string) : exc + gmap string rcval :=
  match style with
  | [] => inl IndexError                       (* style[0] *)
  | s0 :: _ =>
      match lookup_style registry s0 with
      | inl e => inl e
      | inr _style =>
          if Nat.ltb 1 (length style) then merge_loop registry style _style
          else inr _style
      end
  end.

(** The merge as the spec words it: [sn] overridden by [sn-1], ..., by
    [s1] (an absent name contributes nothing). *)
Fixpoint spec_override (registry : gmap string (gmap string rcval))
    (style : list string) : gmap string rcval :=
  match style with
  | [] => ∅
  | s :: rest => default ∅ (registry !! s) ∪ spec_override registry rest
  end.

(** Key by key: the value of the first listed preset holding the key. *)
Fixpoint first_listed (registry : gmap string (gmap string rcval))
    (style : list string) (k : string) : option rcval :=
  match style with
  | [] => None
  | s :: rest =>
      match registry !! s ≫= (.!! k) with
      | Some v => Some v
      | None => first_listed registry rest k
      end
  end.

End Themes.

(** ** The global rendering configuration [matplotlib.rcParams]

    The state is the dictionary [rcParams]; its key set is fixed, since
    [RcParams.__setitem__] refuses unknown keys with [KeyError].  The
    rcsetup validators' conversion of values is not modelled: values are
    stored as written. *)
Module Rc.

Abbreviation rc_params := (gmap string rcval).

(** State and error monad over [rcParams]: an exception keeps the state
    reached so far, as Python does. *)
Definition M (A : Type) : Type := rc_params -> rc_params * (exc + A).

Definition ret {A} (a : A) : M A := fun s => (s, inr a).

Definition bind {A B} (m : M A) (f : A -> M B) : M B :=
  fun s => match m s with
           | (s', inr a) => f a s'
           | (s', inl e) => (s', inl e)
           end.

Notation "'let!' x := m 'in' k" := (bind m (fun x => k))
  (at level 200, x binder, m at level 100, k at level 200).

(** [mpl.rcParams[k] = v] *)
Definition rc_set (k : string) (v : rcval) : M unit :=
  fun rc => match rc !! k with
            | Some _ => (<[k:=v]> rc, inr tt)
            | None => (rc, inl KeyError)
            end.

(** [rcParams.update(d)]: [MutableMapping.update], one [__setitem__] per key. *)
Fixpoint rc_update_list (kvs : list (string * rcval)) : M unit :=
  match kvs with
  | [] => ret tt
  | (k, v) :: rest => let! _ := rc_set k v in rc_update_list rest
  end.

Definition rc_update (d : gmap string rcval) : M unit :=
  rc_update_list (map_to_list d).

(** [set_export_text_type()] (themes.py) *)
Definition set_export_text_type : M unit :=
  let! _ := rc_set "pdf.fonttype" (RInt 42) in
  let! _ := rc_set "ps.fonttype" (RInt 42) in
  let! _ := rc_set "font.family" (RStr "sans-serif") in
  rc_set "font.sans-serif" (RStrList ["Arial"]).

(** Truth value of the [rc] argument in [if rc:]. *)
Definition rc_truthy (rc : option (gmap string rcval)) : bool :=
  match rc with
  | Some d => bool_decide (d ≠ ∅)
  | None => false
  end.

(** [matplotlib.rc_context] is a [contextlib.contextmanager]:
<<
    orig = dict(rcParams.copy())
    del orig['backend']
    try:
        if rc:
            rcParams.update(rc)
        yield
    finally:
        dict.update(rcParams, orig)  # Revert to the original rcs.
>>
    Its generator is either suspended at the [yield], holding [orig],
    or finished. *)
Inductive gen_state :=
| GenSuspended (orig : rc_params)
| GenDone.

(** [dict.update(rcParams, orig)]: the keys of [orig] win. *)
Definition rc_restore (orig : rc_params) : M unit :=
  fun rc => (orig ∪ rc, inr tt).

(** [rc_context(rc).__enter__()]: run the generator up to [yield]; on an
    exception the [finally] restores and the exception propagates. *)
Definition rc_context_enter (rc : option (gmap string rcval)) : M gen_state :=
  fun st =>
    let orig := delete "backend" st in
    let '(st1, r) := (if rc_truthy rc then rc_update (default ∅ rc) else ret tt) st in
    match r with
    | inl e => (orig ∪ st1, inl e)
    | inr _ => (st1, inr (GenSuspended orig))
    end.

(** [rc_context.__exit__(...)]: resume the generator (with [next] or
    [throw]); its [finally] restores.  A finished generator does nothing
    ([StopIteration], or the thrown exception itself, gives [False]). *)
Definition rc_context_exit (g : gen_state) : M unit :=
  match g with
  | GenSuspended orig => rc_restore orig
  | GenDone => ret tt
  end.

End Rc.

Module StylesCM.
Import Rc.

(** A [Styles] object: [self.theme] and [self._rc_context] ([None]
    before the first [__enter__]). *)
Record Styles := mkStyles {
  theme : option (gmap string rcval);
  rc_context : option gen_state
}.

(** [Styles(s1, ..., sn)] *)
Definition Styles_new (registry : gmap string (gmap string rcval))
    (style : list string) : exc + Styles :=
  match Themes.Styles_init registry style with
  | inl e => inl e
  | inr t => inr (mkStyles (Some t) None)
  end.

(** [Styles.__enter__]: the object after the call, and the monadic effect. *)
Definition Styles_enter (self : Styles) : rc_params -> Styles * rc_params * (exc + unit) :=
  fun st =>
    match rc_context_enter (theme self) st with
    | (st1, inl e) => (self, st1, inl e)
    | (st1, inr g) =>
        let self' := mkStyles (theme self) (Some g) in
        let '(st2, r) := set_export_text_type st1 in (self', st2, r)
    end.

(** [Styles.__exit__(exc_type, exc_val, exc_tb)]; the exception info
    only selects [next] or [throw] in the generator, both run its
    [finally] and neither raises here. *)
Definition Styles_exit (self : Styles) (exc_info : option exc)
    : rc_params -> Styles * rc_params * (exc + unit) :=
  fun st =>
    match rc_context self with
    | None => (self, st, inl AttributeError)
    | Some g =>
        let '(st1, r) := rc_context_exit g st in
        (mkStyles None (Some GenDone), st1, r)
    end.

Definition exc_of (r : exc + unit) : option exc :=
  match r with inl e => Some e | inr _ => None end.

(** [with self: body]: [__exit__] runs whether [body] returned or raised;
    it returns a false value, so [body]'s exception propagates. *)
Definition with_styles (self : Styles) (body : M unit)
    : rc_params -> Styles * rc_params * (exc + unit) :=
  fun st =>
    match Styles_enter self st with
    | (self1, st1, inl e) => (self1, st1, inl e)
    | (self1, st1, inr _) =>
        let '(st2, r) := body st1 in
        match Styles_exit self1 (exc_of r) st2 with
        | (self3, st3, inl e) => (self3, st3, inl e)
        | (self3, st3, inr _) => (self3, st3, r)
        end
    end.

End StylesCM.

(** ** The science logger (utils.py) *)
Module Utils.

(** [class Options(IntEnum)] *)
Inductive Options := SKIP | SHOW | SAVE.

Definition Options_value (o : Options) : Z :=
  match o with SKIP => 0 | SHOW => 1 | SAVE => 2 end.

(** [a >= b] and [a < b] on the [IntEnum] values. *)
Definition opt_ge (a b : Options) : bool := Z.leb (Options_value b) (Options_value a).
Definition opt_lt (a b : Options) : bool := Z.ltb (Options_value a) (Options_value b).

(** Logging levels of the [logging] module. *)
Definition INFO : Z := 20.
Definition WARNING : Z := 30.
Definition ERROR : Z := 40.

(** A [pathlib.Path] as its list of components; [joinpath] appends
    components (a run name is one component). *)
Abbreviation path := (list string).

Definition path_str (p : path) : string :=
  match p with
  | [] => "."
  | c :: rest => foldl (fun acc c' => acc +:+ "/" +:+ c') c rest
  end.

Definition basename (p : path) : string := default "" (last p).

Definition parent (p : path) : path := removelast p.

(** The file system: directories, and files with their contents. *)
Record fs := mkFs { fs_dirs : gset path; fs_files : gmap path string }.

Definition is_dir (f : fs) (p : path) : bool := bool_decide (p ∈ fs_dirs f).

Definition path_exists (f : fs) (p : path) : bool :=
  bool_decide (p ∈ fs_dirs f) || bool_decide (is_Some (fs_files f !! p)).

(** [with p.open("w") as f: f.write("")] *)
Definition open_write_empty (p : path) (f : fs) : exc + fs :=
  if is_dir f p then inl IsADirectoryError
  else if is_dir f (parent p) then inr (mkFs (fs_dirs f) (<[p:=""]> (fs_files f)))
  else inl FileNotFoundError.

(** [open(p, "a")], done by [logging.FileHandler] at construction. *)
Definition open_append (p : path) (f : fs) : exc + fs :=
  if is_dir f p then inl IsADirectoryError
  else match fs_files f !! p with
       | Some _ => inr f
       | None => if is_dir f (parent p)
                 then inr (mkFs (fs_dirs f) (<[p:=""]> (fs_files f)))
                 else inl FileNotFoundError
       end.

Inductive formatter :=
| ScienceConsoleFormatter
| Formatter (fmt : string).

Inductive handler :=
| StreamHandler (level : Z) (fmt : formatter)
| FileHandler (filename : path) (mode : string) (encoding : string)
    (level : Z) (fmt : formatter).

(** The process: the file system, and the [logging] registry: the level
    and the handlers of each named logger ([logging.getLogger(name)]
    returns the same logger for the same name). *)
Record world := mkWorld {
  w_fs : fs;
  w_levels : gmap string Z;
  w_handlers : gmap string (list handler)
}.

Definition handlers_of (w : world) (nm : string) : list handler :=
  default [] (w_handlers w !! nm).

(** [self.logger.addHandler(h)] *)
Definition add_handler (nm : string) (h : handler) (w : world) : world :=
  mkWorld (w_fs w) (w_levels w) (<[nm := handlers_of w nm ++ [h]]> (w_handlers w)).

Definition set_level (nm : string) (lvl : Z) (w : world) : world :=
  mkWorld (w_fs w) (<[nm := lvl]> (w_levels w)) (w_handlers w).

Definition set_fs (f : fs) (w : world) : world :=
  mkWorld f (w_levels w) (w_handlers w).

Record ScienceLogger := mkLogger {
  name : string;
  directory : path;
  _FIGURES : Options;
  _STATISTICS : Options;
  _INTEGRITY : Options
}.

Definition _LINE_LENGTH : nat := 80.
Definition _LOG_LEVEL : Z := INFO.

Definition data_directory (self : ScienceLogger) : path :=
  directory self ++ [name self; "data"].

Definition figures_directory (self : ScienceLogger) : path :=
  directory self ++ [name self; "figures"].

Definition stats_file (self : ScienceLogger) : path :=
  directory self ++ [name self; "stats"; name self +:+ "_stats.txt"].

(** [ScienceLogger.__init__(name, directory, figures, statistics, integrity)];
    [directory] is a [Path] (a [Path] is always true in [if directory]). *)
Definition ScienceLogger_init (nm : string) (dir : path)
    (figures statistics integrity : Options) (w : world)
    : world * (exc + ScienceLogger) :=
  let self := mkLogger nm dir figures statistics integrity in
  if negb (is_dir (w_fs w) dir && path_exists (w_fs w) dir) then (w, inl AssertionError)
  else
  let w0 := set_level nm _LOG_LEVEL w in
  let w1 := if existsb (fun o => opt_ge o SHOW) [figures; statistics; integrity]
            then add_handler nm (StreamHandler _LOG_LEVEL ScienceConsoleFormatter) w0
            else w0 in
  if existsb (fun o => opt_ge o SAVE) [statistics; integrity] then
    let created :=
      if path_exists (w_fs w1) (stats_file self) then inr (w_fs w1)
      else open_write_empty (stats_file self) (w_fs w1) in
    match created with
    | inl e => (w1, inl e)
    | inr f2 =>
        match open_append (stats_file self) f2 with
        | inl e => (set_fs f2 w1, inl e)
        | inr f3 =>
            (add_handler nm (FileHandler (stats_file self) "a" "utf-8" _LOG_LEVEL
                                         (Formatter "%(message)s"))
                         (set_fs f3 w1),
             inr self)
        end
    end
  else (w1, inr self).

Fixpoint py_repeat (n : nat) (s : string) : string :=
  match n with
  | O => ""
  | S n' => s +:+ py_repeat n' s
  end.

Definition nl : string := String (Ascii.ascii_of_nat 10) EmptyString.

Definition _DEMARCATOR : string := py_repeat _LINE_LENGTH "-".

(** [f"{self._DEMARCATOR}\n{message}\n{self._DEMARCATOR}"] *)
Definition banner (s : string) : string :=
  _DEMARCATOR +:+ nl +:+ s +:+ nl +:+ _DEMARCATOR.

(** What a call does, in order: calls of the table formatter
    [statistics_table_to_file] (i.e. [tabulate]) and emitted log records. *)
Inductive event (frame : Type) :=
| ETabulate (t : frame)
| ELog (level : Z) (msg : string).
Arguments ETabulate {frame} t.
Arguments ELog {frame} level msg.

Section Messages.
(** A data frame, the library calls on it, and pathlib's matching of one
    path component against a glob pattern (external code). *)
Context {frame : Type}.
Variable to_pandas : frame -> frame.
Variable statistics_table_to_file : frame -> string.
Variable str_polars : frame -> string.
Variable str_pandas : frame -> string.
Variable fnmatch : string -> string -> bool.

(** [message: str | pl.DataFrame | pd.DataFrame] *)
Inductive message :=
| MStr (s : string)
| MPolars (t : frame)
| MPandas (t : frame).

(** [f"{message}"] *)
Definition message_str (m : message) : string :=
  match m with
  | MStr s => s
  | MPolars t => str_polars t
  | MPandas t => str_pandas t
  end.

(** [ScienceLogger.stats(message)] *)
Definition stats (self : ScienceLogger) (m : message) : list (event frame) :=
  if opt_lt (_STATISTICS self) SHOW then []
  else
    let m1 := match m with MPolars t => MPandas (to_pandas t) | _ => m end in
    match m1 with
    | MPandas t => [ETabulate t; ELog INFO (banner (statistics_table_to_file t))]
    | _ => [ELog INFO (banner (message_str m1))]
    end.

(** [ScienceLogger.integrity(message)] *)
Definition integrity (self : ScienceLogger) (m : message) : list (event frame) :=
  if opt_lt (_INTEGRITY self) SHOW then []
  else [ELog INFO (banner (message_str m))].

(** [root.rglob(pattern)]: every file or directory strictly below [root]
    whose last component matches [pattern]. *)
Definition rglob (root : path) (pattern : string) (f : fs) : gset path :=
  filter (fun p => bool_decide (root `prefix_of` p ∧ length root < length p)
                   && fnmatch (basename p) pattern = true)
         (fs_dirs f ∪ dom (fs_files f)).

(** [ScienceLogger.find_data(data_name)]: the records logged and the
    result ([inr None] is the returned [None]). *)
Definition find_data (self : ScienceLogger) (data_name : string) (f : fs)
    : list (event frame) * (exc + option path) :=
  let matches := rglob (data_directory self) ("*" +:+ data_name +:+ "*") f in
  if Nat.ltb 1 (size matches) then
    ([ELog WARNING ("Multiple files found for " +:+ data_name +:+ " in "
                    +:+ path_str (data_directory self) +:+ ". Using the first match.")],
     inr None)
  else if Nat.eqb (size matches) 0 then
    ([ELog ERROR ("No files found for " +:+ data_name +:+ " in "
                  +:+ path_str (data_directory self) +:+ ".")],
     inl FileNotFoundError)
  else ([], inr (head (elements matches))).

End Messages.

End Utils.

(** ** Saving figures: [export_for_pub] (themes.py) and
    [ScienceLogger.figure] (utils.py), with pathlib's suffix handling
    (POSIX paths, Python 3.12) *)
Module Figures.
Import Utils.

(** [s[n:]] and [s[:n]] for [0 <= n]. *)
Fixpoint str_drop (n : nat) (s : string) : string :=
  match n, s with
  | O, _ => s
  | S _, EmptyString => EmptyString
  | S n', String _ s' => str_drop n' s'
  end.

Fixpoint str_take (n : nat) (s : string) : string :=
  match n, s with
  | O, _ => EmptyString
  | S _, EmptyString => EmptyString
  | S n', String c s' => String c (str_take n' s')
  end.

(** [s.rfind(c)] scanning from index [i]; [None] stands for [-1]. *)
Fixpoint rfind_from (c : Ascii.ascii) (s : string) (i : nat) (acc : option nat)
    : option nat :=
  match s with
  | EmptyString => acc
  | String c' s' => rfind_from c s' (S i) (if Ascii.eqb c' c then Some i else acc)
  end.

Definition str_rfind (c : Ascii.ascii) (s : string) : option nat := rfind_from c s 0 None.

(** [c in s] for a one-character [c]. *)
Definition str_has (c : Ascii.ascii) (s : string) : bool :=
  match str_rfind c s with Some _ => true | None => false end.

(** [PurePath.suffix]:
<<
    name = self.name
    i = name.rfind('.')
    if 0 < i < len(name) - 1:
        return name[i:]
    else:
        return ''
>> *)
Definition suffix (p : path) : string :=
  let nm := basename p in
  match str_rfind "."%char nm with
  | Some i =>
      if Nat.ltb 0 i && Nat.ltb i (String.length nm - 1) then str_drop i nm else ""
  | None => ""
  end.

(** [PurePath.with_suffix(suffix)]:
<<
    if f.sep in suffix or f.altsep and f.altsep in suffix:
        raise ValueError("Invalid suffix %r" % (suffix,))
    if suffix and not suffix.startswith('.') or suffix == '.':
        raise ValueError("Invalid suffix %r" % (suffix))
    name = self.name
    if not name:
        raise ValueError("%r has an empty name" % (self,))
    old_suffix = self.suffix
    if not old_suffix:
        name = name + suffix
    else:
        name = name[:-len(old_suffix)] + suffix
    return self._from_parsed_parts(self.drive, self.root, self._tail[:-1] + [name])
>> *)
Definition with_suffix (p : path) (sfx : string) : exc + path :=
  if str_has "/"%char sfx then inl ValueError
  else if (negb (String.eqb sfx "") && negb (String.prefix "." sfx)) || String.eqb sfx "."
  then inl ValueError
  else
    let nm := basename p in
    if String.eqb nm "" then inl ValueError
    else
      let old_suffix := suffix p in
      let nm' := if String.eqb old_suffix "" then nm +:+ sfx
                 else str_take (String.length nm - String.length old_suffix) nm +:+ sfx in
      inr (parent p ++ [nm']).

(** What saving a figure does: [fig.savefig(path, transparent=...)], and
    the emitted log records. *)
Inductive fig_event :=
| FSave (p : path) (transparent : bool)
| FLog (level : Z) (msg : string).

(** [export_for_pub(fig, path)]:
<<
    if path.suffix != ".pdf":
        path = path.with_suffix(".pdf")
    fig.savefig(path, transparent=True, **kwargs)
>> *)
Definition export_for_pub (p : path) : exc + fig_event :=
  let p' := if String.eqb (suffix p) ".pdf" then inr p else with_suffix p ".pdf" in
  match p' with
  | inl e => inl e
  | inr q => inr (FSave q true)
  end.


End Figures.

(** ** [Directories] (utils.py) and [Path.mkdir] *)
Module Dirs.
Import Utils.

(** Path resolution of [os.mkdir(p)] through the proper prefixes of [p]:
    a missing one gives [ENOENT], a non-directory one [ENOTDIR]. *)
Fixpoint walk (f : fs) (ps : list path) : option exc :=
  match ps with
  | [] => None
  | q :: rest =>
      if is_dir f q then walk f rest
      else if path_exists f q then Some NotADirectoryError
      else Some FileNotFoundError
  end.

(** [os.mkdir(p)] *)
Definition os_mkdir (p : path) (f : fs) : exc + fs :=
  match walk f (map (fun n => take n p) (seq 1 (length p - 1))) with
  | Some e => inl e
  | None =>
      if path_exists f p then inl FileExistsError
      else inr (mkFs ({[p]} ∪ fs_dirs f) (fs_files f))
  end.

(** [Path.mkdir(parents=False, exist_ok=True)]:
<<
    try:
        os.mkdir(self, mode)
    except FileNotFoundError:
        if not parents or self.parent == self:
            raise
        self.parent.mkdir(parents=True, exist_ok=True)
        self.mkdir(mode, parents=False, exist_ok=exist_ok)
    except OSError:
        if not exist_ok or not self.is_dir():
            raise
>> *)
Definition mkdir_exist_ok (p : path) (f : fs) : exc + fs :=
  match os_mkdir p f with
  | inr f' => inr f'
  | inl FileNotFoundError => inl FileNotFoundError
  | inl e => if is_dir f p then inr f else inl e
  end.

(** [Path.mkdir(parents=True, exist_ok=True)]; [fuel] is [length p], as
    each recursive call is on the parent. *)
Fixpoint mkdir_parents (fuel : nat) (p : path) (f : fs) : exc + fs :=
  match os_mkdir p f with
  | inr f' => inr f'
  | inl FileNotFoundError =>
      if bool_decide (parent p = p) then inl FileNotFoundError
      else match fuel with
           | O => inl FileNotFoundError
           | S n =>
               match mkdir_parents n (parent p) f with
               | inl e => inl e
               | inr f1 => mkdir_exist_ok p f1
               end
           end
  | inl e => if is_dir f p then inr f else inl e
  end.

Definition mkdir (p : path) (f : fs) : exc + fs := mkdir_parents (length p) p f.

(** [Directories(folder, base_directory)]: the file system after the call
    and the dictionary built.  [_BASE_DIRECTORY] is read from the
    environment at import; a [Path] is always true in
    [base_directory if base_directory else _BASE_DIRECTORY]. *)
Definition Directories (_BASE_DIRECTORY : path) (folder : string)
    (base_directory : option path) (f : fs) : fs * (exc + gmap string path) :=
  let base := match base_directory with Some d => d | None => _BASE_DIRECTORY end in
  let data := base ++ ["data"; folder] in
  let figures := base ++ ["figures"; folder] in
  let stats := base ++ ["stats"; folder] in
  match mkdir data f with
  | inl e => (f, inl e)
  | inr f1 =>
      match mkdir figures f1 with
      | inl e => (f1, inl e)
      | inr f2 =>
          match mkdir stats f2 with
          | inl e => (f2, inl e)
          | inr f3 =>
              (f3, inr {[ "data" := data; "figures" := figures; "stats" := stats ]})
          end
      end
  end.

End Dirs.

(** ** Colors (themes.py); a float channel is a rational *)
Module Colors.

Record Color := mkColor { r : Q; g : Q; b : Q; a : Q }.

(** [Color(r, g, b)] with the default [a = 1.0]. *)
Definition Color3 (r g b : Q) : Color := mkColor r g b 1.

Inductive ColorRegistry :=
| BRIGHT_BLUE | BRIGHT_RED | BRIGHT_GREEN
| DESATURATED_BLUE | DESATURATED_RED | DESATURATED_GREEN
| DESATURATED_ORANGE | DESATURATED_PURPLE
| NOTEBOOK_RED | NOTEBOOK_GREEN | NOTEBOOK_BLUE | NOTEBOOK_ORANGE | NOTEBOOK_YELLOW
| GRAY | CHARCOAL | CMO_GREEN | CMO_PURPLE | MINT | BURROW_GREEN
| LIGHT_GRAY | LIGHTEST_GRAY | LIGHT_BLUE | BLUE_BELL | PINK | WHITE | INVISIBLE.

Definition value (c : ColorRegistry) : Color :=
  match c with
  | BRIGHT_BLUE => Color3 (17 # 255) (159 # 255) (255 # 255)
  | BRIGHT_RED => Color3 (255 # 255) (75 # 255) (78 # 255)
  | BRIGHT_GREEN => Color3 (64 # 255) (204 # 255) (139 # 255)
  | DESATURATED_BLUE => Color3 (72 # 255) (136 # 255) (170 # 255)
  | DESATURATED_RED => Color3 (197 # 255) (85 # 255) (94 # 255)
  | DESATURATED_GREEN => Color3 (0 # 255) (158 # 255) (115 # 255)
  | DESATURATED_ORANGE => Color3 (244 # 255) (154 # 255) (95 # 255)
  | DESATURATED_PURPLE => Color3 (101 # 255) (89 # 255) (152 # 255)
  | NOTEBOOK_RED => Color3 (191 # 255) (97 # 255) (106 # 255)
  | NOTEBOOK_GREEN => Color3 (163 # 255) (190 # 255) (140 # 255)
  | NOTEBOOK_BLUE => Color3 (136 # 255) (192 # 255) (208 # 255)
  | NOTEBOOK_ORANGE => Color3 (208 # 255) (135 # 255) (112 # 255)
  | NOTEBOOK_YELLOW => Color3 (235 # 255) (203 # 255) (109 # 255)
  | GRAY => Color3 (128 # 255) (128 # 255) (128 # 255)
  | CHARCOAL => Color3 (51 # 255) (51 # 255) (51 # 255)
  | CMO_GREEN => Color3 (119 # 255) (205 # 255) (162 # 255)
  | CMO_PURPLE => Color3 (64 # 255) (76 # 255) (139 # 255)
  | MINT => Color3 (109 # 255) (209 # 255) (156 # 255)
  | BURROW_GREEN => Color3 (158 # 255) (191 # 255) (164 # 255)
  | LIGHT_GRAY => Color3 (192 # 255) (192 # 255) (192 # 255)
  | LIGHTEST_GRAY => Color3 (228 # 255) (228 # 255) (228 # 255)
  | LIGHT_BLUE => Color3 (102 # 255) (161 # 255) (229 # 255)
  | BLUE_BELL => Color3 (136 # 255) (142 # 255) (201 # 255)
  | PINK => Color3 (255 # 255) (162 # 255) (169 # 255)
  | WHITE => Color3 1 1 1
  | INVISIBLE => mkColor 0 0 0 0
  end.

(** [ColorScheme.DEFAULTS] *)
Definition DEFAULTS : list Color :=
  map value [DESATURATED_RED; DESATURATED_BLUE; DESATURATED_GREEN;
             DESATURATED_ORANGE; DESATURATED_PURPLE].

(** Tuple indexing [t[i]]: negative indices count from the end, out of
    range raises [IndexError]. *)
Definition py_index {A} (t : list A) (i : Z) : exc + A :=
  let n := Z.of_nat (length t) in
  let j := (if Z.ltb i 0 then i + n else i)%Z in
  if Z.leb 0 j && Z.ltb j n then
    match t !! Z.to_nat j with Some x => inr x | None => inl IndexError end
  else inl IndexError.

(** [ColorScheme.get_defaults(idx)]: [cls.DEFAULTS[idx % len(cls.DEFAULTS)]];
    Python's [%] is the floored modulo, [Z.modulo]. *)
Definition get_defaults (idx : Z) : exc + Color :=
  py_index DEFAULTS (Z.modulo idx (Z.of_nat (length DEFAULTS))).

End Colors.

(** ** [ListEnum] (utils.py) *)
Module ListEnumM.
Section ListEnum.
Context {V : Type} `{EqDecision V}.

(** A [ListEnum] subclass is seen through [cls.__members__.values()]: its
    members, as name and value, in definition order. *)
Definition member_values (members : list (string * V)) : list V := map snd members.

(** [cls.get(item)]: [[member.value for member in ...][item]]. *)
Definition get (members : list (string * V)) (item : Z) : exc + V :=
  Colors.py_index (member_values members) item.

(** [cls.contains(item)] *)
Definition contains (members : list (string * V)) (item : V) : bool :=
  bool_decide (item ∈ member_values members).

(** [list.index(item)]: the first position, or [ValueError]. *)
Fixpoint list_index (l : list V) (item : V) : exc + nat :=
  match l with
  | [] => inl ValueError
  | x :: rest =>
      if decide (x = item) then inr O
      else match list_index rest item with
           | inl e => inl e
           | inr i => inr (S i)
           end
  end.

(** [cls.index(item)] *)
Definition index (members : list (string * V)) (item : V) : exc + nat :=
  list_index (member_values members) item.

(** [cls.by_value(value)] with the default [None]. *)
Fixpoint by_value (members : list (string * V)) (value : V) : option (string * V) :=
  match members with
  | [] => None
  | member :: rest => if decide (member.2 = value) then Some member else by_value rest value
  end.

(** [c.isascii() and c.islower()]: a lowercase letter [a-z]. *)
Definition is_lower (c : ascii) : bool :=
  let n := nat_of_ascii c in (97 <=? n) && (n <=? 122).

(** [c.isascii()] for every character [c] of [s]. *)
Fixpoint ascii7 (s : string) : bool :=
  match s with
  | EmptyString => true
  | String c s' => (nat_of_ascii c <? 128) && ascii7 s'
  end.

Fixpoint has_lower (s : string) : bool :=
  match s with
  | EmptyString => false
  | String c s' => is_lower c || has_lower s'
  end.

(** [str.upper()] on ASCII text: [a-z] become [A-Z], other characters
    are kept. *)
Definition upper_char (c : ascii) : ascii :=
  if is_lower c then ascii_of_nat (nat_of_ascii c - 32) else c.

Fixpoint py_upper (s : string) : string :=
  match s with
  | EmptyString => EmptyString
  | String c s' => String (upper_char c) (py_upper s')
  end.

(** [dict.get(key)] on a dict given by its items (keys are distinct). *)
Fixpoint dict_get {M : Type} (d : list (string * M)) (key : string) : option M :=
  match d with
  | [] => None
  | (k, m) :: rest => if decide (k = key) then Some m else dict_get rest key
  end.

(** [cls.by_name(name)] with the default [None]; [members_map] is
    [cls.__members__]: every member name, aliases included, with its
    member (as name and value). *)
Definition by_name (members_map : list (string * (string * V))) (name : string)
    : option (string * V) :=
  dict_get members_map (py_upper name).

End ListEnum.
End ListEnumM.

(** ** [fixed_size_subplots] (themes.py); floats as rationals *)
Module Layout.
Local Open Scope Q_scope.

Definition sbind {A B} (x : exc + A) (f : A -> exc + B) : exc + B :=
  match x with inl e => inl e | inr v => f v end.

Notation "'let?' x := m 'in' k" := (sbind m (fun x => k))
  (at level 200, x binder, m at level 100, k at level 200).

(** Float division [x / y]: [ZeroDivisionError] on a zero divisor. *)
Definition py_div (x y : Q) : exc + Q :=
  if Qeq_bool y 0 then inl ZeroDivisionError else inr (x / y).

Definition QofNat (n : nat) : Q := inject_Z (Z.of_nat n).

Record Figure := mkFigure { figsize : Q * Q; axes : list (list Q) }.

(** [plt.figure(figsize=(width, height))]: [Figure.__init__] refuses a
    negative size. *)
Definition plt_figure (width height : Q) : exc + Figure :=
  if negb (Qle_bool 0 width && Qle_bool 0 height) then inl ValueError
  else inr (mkFigure (width, height) []).

(** The rectangle passed to [fig.add_axes] for cell [(i, j)]. *)
Definition cell_rect (m h a b width height : Q) (i j : nat) : exc + list Q :=
  let? x0 := py_div (m + QofNat j * (2 * m + b)) width in
  let? y0 := py_div (height - QofNat (i + 1) * (2 * h + a) + h) height in
  let? w := py_div b width in
  let? hh := py_div a height in
  inr [x0; y0; w; hh].

Fixpoint map_exc {A B} (f : A -> exc + B) (l : list A) : exc + list B :=
  match l with
  | [] => inr []
  | x :: rest => let? y := f x in let? ys := map_exc f rest in inr (y :: ys)
  end.

(** [fixed_size_subplots(nrows, ncols, margin, header, subwidth, subheight)]:
    the figure (its size and its axes in the order added) and [axarr]. *)
Definition fixed_size_subplots (nrows ncols : nat) (margin header subwidth subheight : Q)
    : exc + (Figure * list (list (list Q))) :=
  let m := margin in
  let h := header in
  let a := subheight in
  let b := subwidth in
  let width := QofNat ncols * (m + b + m) in
  let height := QofNat nrows * (h + a + h) in
  let? fig := plt_figure width height in
  let? axarr := map_exc (fun i => map_exc (fun j => cell_rect m h a b width height i j)
                                          (seq 0 ncols))
                        (seq 0 nrows) in
  inr (mkFigure (figsize fig) (axes fig ++ concat axarr), axarr).

End Layout.

(** ** [desaturate] (themes.py) and the [colorsys] conversions it uses *)
Module Colorsys.
Import Colors Layout.
Local Open Scope Q_scope.

(** [x % 1.0] on floats: the floored remainder. *)
Definition py_mod1 (x : Q) : Q := x - inject_Z (Qfloor x).

Definition ONE_THIRD : Q := 1 # 3.
Definition ONE_SIXTH : Q := 1 # 6.
Definition TWO_THIRD : Q := 2 # 3.

(** [max(r, g, b)] and [min(r, g, b)] *)
Definition max3 (x y z : Q) : Q := Qmax x (Qmax y z).
Definition min3 (x y z : Q) : Q := Qmin x (Qmin y z).

(** [colorsys.rgb_to_hls(r, g, b)] *)
Definition rgb_to_hls (r g b : Q) : exc + (Q * Q * Q) :=
  let maxc := max3 r g b in
  let minc := min3 r g b in
  let sumc := maxc + minc in
  let rangec := maxc - minc in
  let l := sumc / 2 in
  if Qeq_bool minc maxc then inr (0, l, 0)
  else
    let? s := if Qle_bool l (1 # 2) then py_div rangec sumc
              else py_div rangec (2 - maxc - minc) in
    let? rc := py_div (maxc - r) rangec in
    let? gc := py_div (maxc - g) rangec in
    let? bc := py_div (maxc - b) rangec in
    let h := if Qeq_bool r maxc then bc - gc
             else if Qeq_bool g maxc then 2 + rc - bc
             else 4 + gc - rc in
    inr (py_mod1 (h / 6), l, s).

(** [colorsys._v(m1, m2, hue)] *)
Definition _v (m1 m2 hue : Q) : Q :=
  let hue := py_mod1 hue in
  if Qlt_le_dec hue ONE_SIXTH then m1 + (m2 - m1) * hue * 6
  else if Qlt_le_dec hue (1 # 2) then m2
  else if Qlt_le_dec hue TWO_THIRD then m1 + (m2 - m1) * (TWO_THIRD - hue) * 6
  else m1.

(** [colorsys.hls_to_rgb(h, l, s)] *)
Definition hls_to_rgb (h l s : Q) : Q * Q * Q :=
  if Qeq_bool s 0 then (l, l, l)
  else
    let m2 := if Qle_bool l (1 # 2) then l * (1 + s) else l + s - l * s in
    let m1 := 2 * l - m2 in
    (_v m1 m2 (h + ONE_THIRD), _v m1 m2 h, _v m1 m2 (h - ONE_THIRD)).

(** [desaturate(color, factor)]: the [Color] built from the three values
    of [colorsys.hls_to_rgb(h, l, s)] takes the default alpha. *)
Definition desaturate (color : Color) (factor : Q) : exc + Color :=
  let? hls := rgb_to_hls (r color) (g color) (b color) in
  let '(h, l, s) := hls in
  let s := s * factor in
  let '(r', g', b') := hls_to_rgb h l s in
  inr (Color3 r' g' b').

End Colorsys.

(** * Properties *)

Import Themes StylesCM.

(** A small registry with overlapping presets. *)
Definition reg_example : gmap string (gmap string rcval) :=
  {[ "pub" := {[ "font.size" := RInt 7; "axes.grid" := RBool false ]};
     "py-grid" := {[ "font.size" := RInt 10; "grid.color" := RStr "white" ]};
     "blank" := {[ "axes.grid" := RBool true; "lines.linewidth" := RInt 1 ]} ]}.

Example Styles_init_example :
  Styles_init reg_example ["pub"; "py-grid"; "blank"]
  = inr {[ "font.size" := RInt 7; "axes.grid" := RBool false;
           "grid.color" := RStr "white"; "lines.linewidth" := RInt 1 ]}.
Proof. vm_compute. reflexivity. Qed.

Lemma merge_loop_all_known registry style acc :
  Forall (fun s => is_Some (registry !! s)) style ->
  merge_loop registry style acc = inr (acc ∪ spec_override registry style).
Proof.
  revert acc; induction style as [|s rest IH]; intros acc Hall; simpl.
  - by rewrite map_union_empty.
  - inversion Hall as [|? ? [d Hd] Hrest]; subst.
    unfold lookup_style. rewrite Hd; simpl.
    rewrite IH by done. unfold py_merge.
    by rewrite (assoc_L (∪)).
Qed.

Lemma spec_override_lookup registry style k :
  spec_override registry style !! k = first_listed registry style k.
Proof.
  induction style as [|s rest IH]; simpl; [by rewrite lookup_empty |].
  rewrite lookup_union, <- IH.
  destruct (registry !! s) as [d|]; simpl.
  - destruct (d !! k), (spec_override registry rest !! k); done.
  - rewrite lookup_empty. by destruct (spec_override registry rest !! k).
Qed.

Lemma merge_loop_unknown registry style acc :
  Exists (fun s => registry !! s = None) style ->
  merge_loop registry style acc = inl KeyError.
Proof.
  revert acc; induction style as [|s rest IH]; intros acc Hex;
    [by apply Exists_nil in Hex |].
  simpl; unfold lookup_style.
  destruct (registry !! s) as [d|] eqn:Hs; [|done].
  apply IH. apply Exists_cons in Hex as [Hs'|Hrest]; [congruence | done].
Qed.

(** C1: for a non-empty list of registered names [s1; ...; sn], the theme
    built by [Styles.__init__] is [sn] overridden by [sn-1], ..., by [s1],
    so each key takes its value from the first listed preset holding it. *)
Theorem Styles_init_first_listed_wins registry (style : list string) :
  style ≠ [] ->
  Forall (fun s => is_Some (registry !! s)) style ->
  Styles_init registry style = inr (spec_override registry style) /\
  (forall k, spec_override registry style !! k = first_listed registry style k).
Proof.
  intros Hne Hall. split; [| apply spec_override_lookup].
  destruct style as [|s0 rest]; [done |].
  inversion Hall as [|? ? [d0 Hd0] Hrest]; subst.
  unfold Styles_init, lookup_style at 1. rewrite Hd0.
  rewrite merge_loop_all_known by done.
  destruct rest as [|s1 rest']; simpl; rewrite Hd0; simpl.
  - by rewrite !map_union_empty.
  - by rewrite (assoc_L (∪)), (idemp (∪)).
Qed.

Lemma Styles_init_first_listed_wins_witness :
  ["pub"; "py-grid"; "blank"] ≠ [] /\
  Forall (fun s => is_Some (reg_example !! s)) ["pub"; "py-grid"; "blank"] /\
  Styles_init reg_example ["pub"; "py-grid"; "blank"]
  = inr (spec_override reg_example ["pub"; "py-grid"; "blank"]).
Proof.
  assert (Hall : Forall (fun s => is_Some (reg_example !! s)) ["pub"; "py-grid"; "blank"])
    by (repeat constructor; vm_compute; eexists; reflexivity).
  split; [discriminate | split; [exact Hall |]].
  exact (proj1 (Styles_init_first_listed_wins reg_example ["pub"; "py-grid"; "blank"]
                  ltac:(discriminate) Hall)).
Defined.

(** C7: a non-empty list of style names one of which is not in the
    registry makes the construction of [Styles] fail with [KeyError] (a
    [LookupError]), which reaches the caller. *)
Theorem Styles_new_unknown_name registry (style : list string) :
  style ≠ [] ->
  Exists (fun s => registry !! s = None) style ->
  Styles_new registry style = inl KeyError.
Proof.
  intros Hne Hex. unfold Styles_new, Styles_init.
  destruct style as [|s0 rest]; [done |]. unfold lookup_style at 1.
  destruct (registry !! s0) as [d0|] eqn:Hs0; [| done].
  rewrite merge_loop_unknown by done.
  apply Exists_cons in Hex as [Hs|Hrest]; [congruence |].
  destruct rest as [|s1 rest]; [by apply Exists_nil in Hrest | done].
Qed.

Lemma Styles_new_unknown_name_witness :
  Styles_new reg_example ["pub"; "no-such-style"] = inl KeyError.
Proof.
  apply Styles_new_unknown_name; [discriminate |].
  apply Exists_cons; right; apply Exists_cons; left. vm_compute. reflexivity.
Defined.

(** ** The style scope and [rcParams] *)
Import Rc.

Definition export_keys : list string :=
  ["pdf.fonttype"; "ps.fonttype"; "font.family"; "font.sans-serif"].

(** The keys written by [set_export_text_type] are [rcParams] keys. *)
Definition export_keys_present (st : rc_params) : bool :=
  forallb (fun k => bool_decide (k ∈ dom st)) export_keys.

(** A computation that leaves the key set of [rcParams] unchanged. *)
Definition dom_pres {A} (m : M A) : Prop := forall s, dom (m s).1 = dom s.

Lemma bind_dom_pres {A B} (m : M A) (f : A -> M B) :
  dom_pres m -> (forall a, dom_pres (f a)) -> dom_pres (bind m f).
Proof.
  intros Hm Hf s. unfold bind. specialize (Hm s).
  destruct (m s) as [s' [e|a]]; simpl in *; [done |].
  by rewrite Hf.
Qed.

Lemma ret_dom_pres {A} (a : A) : dom_pres (ret a).
Proof. by intros s. Qed.

Lemma rc_set_dom_pres k v : dom_pres (rc_set k v).
Proof.
  intros s. unfold rc_set. destruct (s !! k) eqn:E; simpl; [| done].
  rewrite dom_insert_L. apply elem_of_dom_2 in E. set_solver.
Qed.

Lemma rc_update_list_dom_pres kvs : dom_pres (rc_update_list kvs).
Proof.
  induction kvs as [|[k v] rest IH]; simpl.
  - apply ret_dom_pres.
  - apply bind_dom_pres; [apply rc_set_dom_pres | intros; apply IH].
Qed.

Lemma set_export_text_type_dom_pres : dom_pres set_export_text_type.
Proof.
  unfold set_export_text_type.
  repeat (apply bind_dom_pres; [apply rc_set_dom_pres | intros _]).
  apply rc_set_dom_pres.
Qed.

Lemma rc_set_ok k v s : k ∈ dom s -> rc_set k v s = (<[k:=v]> s, inr tt).
Proof.
  intros Hk. apply elem_of_dom in Hk as [x Hx]. unfold rc_set. by rewrite Hx.
Qed.

Lemma set_export_text_type_ok s :
  export_keys_present s = true ->
  exists s', set_export_text_type s = (s', inr tt) /\ dom s' = dom s.
Proof.
  unfold export_keys_present, export_keys. simpl.
  rewrite !andb_true_iff, !bool_decide_eq_true. intros (H1 & H2 & H3 & H4 & _).
  unfold set_export_text_type, bind.
  rewrite rc_set_ok by done.
  rewrite rc_set_ok by (rewrite dom_insert_L; set_solver).
  rewrite rc_set_ok by (rewrite !dom_insert_L; set_solver).
  rewrite rc_set_ok by (rewrite !dom_insert_L; set_solver).
  eexists; split; [reflexivity |]. rewrite !dom_insert_L. set_solver.
Qed.

(** [dict.update(rcParams, orig)] with [orig] the entry snapshot minus
    [backend] gives back every other key of the snapshot. *)
Lemma restore_except_backend (st s2 : rc_params) k :
  dom s2 ⊆ dom st -> k ≠ "backend" ->
  (delete "backend" st ∪ s2) !! k = st !! k.
Proof.
  intros Hdom Hk. rewrite lookup_union, lookup_delete_ne by congruence.
  destruct (st !! k) eqn:E; [by destruct (s2 !! k) |].
  destruct (s2 !! k) eqn:E2; [| done].
  exfalso. apply elem_of_dom_2 in E2. apply Hdom, elem_of_dom in E2.
  rewrite E in E2. by destruct E2.
Qed.

Lemma rc_context_enter_dom rc st :
  dom (rc_context_enter rc st).1 = dom st.
Proof.
  unfold rc_context_enter.
  assert (Hp : dom_pres (if rc_truthy rc then rc_update (default ∅ rc) else ret tt))
    by (destruct (rc_truthy rc); [apply rc_update_list_dom_pres | apply ret_dom_pres]).
  specialize (Hp st).
  destruct ((if rc_truthy rc then rc_update (default ∅ rc) else ret tt) st)
    as [st1 [e|u]]; simpl in *; [| done].
  rewrite dom_union_L, dom_delete_L, Hp. apply set_eq. intros x.
  rewrite elem_of_union, elem_of_difference. split; [intros [[]|]|]; auto.
Qed.

Lemma export_keys_present_dom (s1 s2 : rc_params) :
  dom s1 = dom s2 -> export_keys_present s1 = export_keys_present s2.
Proof. intros H. unfold export_keys_present. by rewrite H. Qed.

(** One scope [with self: body], wherever it starts: every key but
    [backend] is back to its value at entry, whether [__enter__] failed,
    [body] returned or [body] raised. *)
Lemma with_styles_restores (self : Styles) (body : M unit) (st : rc_params) self' st' r :
  (forall s, dom (body s).1 ⊆ dom s) ->
  export_keys_present st = true ->
  with_styles self body st = (self', st', r) ->
  forall k, k ≠ "backend" -> st' !! k = st !! k.
Proof.
  intros Hbody Hkeys Hrun k Hk.
  unfold with_styles, Styles_enter, rc_context_enter in Hrun.
  assert (Hp : dom_pres (if rc_truthy (theme self)
                         then rc_update (default ∅ (theme self)) else ret tt))
    by (destruct (rc_truthy (theme self)); [apply rc_update_list_dom_pres | apply ret_dom_pres]).
  specialize (Hp st).
  destruct ((if rc_truthy (theme self) then rc_update (default ∅ (theme self)) else ret tt) st)
    as [st1 [e|u]] eqn:EU; simpl in Hp.
  - injection Hrun as <- <- <-. apply restore_except_backend; [| done].
    rewrite Hp. set_solver.
  - rewrite <- (export_keys_present_dom st1 st Hp) in Hkeys.
    destruct (set_export_text_type_ok st1 Hkeys) as (st2 & Hexp & Hdom2).
    rewrite Hexp in Hrun. simpl in Hrun.
    specialize (Hbody st2).
    destruct (body st2) as [st3 r3]. simpl in Hrun, Hbody.
    injection Hrun as <- <- <-. apply restore_except_backend; [| done].
    rewrite <- Hp, <- Hdom2. done.
Qed.

Lemma Styles_enter_dom (self : Styles) (st : rc_params) self1 st1 r :
  Styles_enter self st = (self1, st1, r) -> dom st1 = dom st.
Proof.
  unfold Styles_enter. intros Hrun.
  pose proof (rc_context_enter_dom (theme self) st) as Hd.
  destruct (rc_context_enter (theme self) st) as [s [e|g]]; simpl in Hd.
  - by injection Hrun as _ <- _.
  - pose proof (set_export_text_type_dom_pres s) as Hs.
    destruct (set_export_text_type s) as [s' r']. simpl in Hs.
    injection Hrun as _ <- _. by rewrite Hs.
Qed.

(** A configuration with the keys the examples use. *)
Definition rc_example : rc_params :=
  {[ "backend" := RStr "agg"; "pdf.fonttype" := RInt 3; "ps.fonttype" := RInt 3;
     "font.family" := RStr "serif"; "font.sans-serif" := RStrList ["DejaVu Sans"];
     "font.size" := RInt 10; "axes.grid" := RBool false ]}.

Definition styles_pub : Styles := mkStyles (Some {[ "font.size" := RInt 7 ]}) None.
Definition styles_grid : Styles := mkStyles (Some {[ "axes.grid" := RBool true ]}) None.

(** [plt.switch_backend("pdf")] inside the scope sets [rcParams["backend"]]. *)
Definition switch_backend_pdf : M unit := rc_set "backend" (RStr "pdf").

(** A block that changes a setting and then raises. *)
Definition raising_block : M unit :=
  bind (rc_set "font.size" (RInt 99)) (fun _ s => (s, inl ValueError)).

Lemma raising_block_dom s : dom (raising_block s).1 ⊆ dom s.
Proof.
  unfold raising_block, bind. pose proof (rc_set_dom_pres "font.size" (RInt 99) s) as H.
  destruct (rc_set "font.size" (RInt 99) s) as [s' [e|u]]; simpl in *; by rewrite H.
Qed.

Lemma switch_backend_pdf_dom s : dom (switch_backend_pdf s).1 ⊆ dom s.
Proof. unfold switch_backend_pdf. by rewrite rc_set_dom_pres. Qed.

(** C2 (as the code behaves): leaving a style scope, after a normal end
    or an exception, gives back every [rcParams] entry except [backend]
    (which [matplotlib.rc_context] leaves out of its snapshot) as it was
    at entry, the export flags included; for a scope nested in an entered
    scope this is the outer scope's active configuration.  The scoped
    code only assigns existing [rcParams] keys. *)
Theorem Styles_scope_restores_all_but_backend (A B : Styles) (body inner : M unit)
    (st : rc_params) :
  (forall s, dom (body s).1 ⊆ dom s) ->
  (forall s, dom (inner s).1 ⊆ dom s) ->
  export_keys_present st = true ->
  (forall A' st' r, with_styles A body st = (A', st', r) ->
     forall k, k ≠ "backend" -> st' !! k = st !! k) /\
  (forall A1 stA, Styles_enter A st = (A1, stA, inr tt) ->
     forall B' stB r, with_styles B inner stA = (B', stB, r) ->
     forall k, k ≠ "backend" -> stB !! k = stA !! k).
Proof.
  intros Hbody Hinner Hkeys. split.
  - intros A' st' r Hrun.
    exact (with_styles_restores A body st A' st' r Hbody Hkeys Hrun).
  - intros A1 stA HA B' stB r Hrun.
    apply (with_styles_restores B inner stA B' stB r Hinner); [| exact Hrun].
    rewrite (export_keys_present_dom stA st); [done |].
    by eapply Styles_enter_dom.
Qed.

Lemma Styles_scope_restores_all_but_backend_witness :
  export_keys_present rc_example = true /\
  (with_styles styles_pub raising_block rc_example).1.2 !! "font.size"
  = rc_example !! "font.size".
Proof.
  assert (Hk : export_keys_present rc_example = true) by (vm_compute; reflexivity).
  split; [exact Hk |].
  destruct (with_styles styles_pub raising_block rc_example) as [[A' st'] r] eqn:E.
  simpl.
  exact (proj1 (Styles_scope_restores_all_but_backend styles_pub styles_grid
                  raising_block switch_backend_pdf rc_example
                  raising_block_dom switch_backend_pdf_dom Hk)
               A' st' r E "font.size" ltac:(discriminate)).
Defined.

(** C2 as stated fails: a scope whose block switches the backend leaves
    [rcParams] different from its state at entry. *)
Lemma Styles_scope_backend_not_restored :
  (with_styles styles_pub switch_backend_pdf rc_example).1.2 ≠ rc_example.
Proof.
  intros H. apply (f_equal (.!! "backend")) in H. vm_compute in H. discriminate.
Qed.

(** C10: once a scope of a [Styles] object has been entered and left
    (normally or by an exception), its [theme] is [None]; entering the
    object again applies no preset: the only change to [rcParams] is the
    one of [set_export_text_type]. *)
Theorem Styles_reentry_applies_no_theme (self : Styles) (body : M unit)
    (st st2 : rc_params) self' st' r :
  (Styles_enter self st).2 = inr tt ->
  with_styles self body st = (self', st', r) ->
  theme self' = None /\
  (Styles_enter self' st2).1.2 = (set_export_text_type st2).1 /\
  (Styles_enter self' st2).2 = (set_export_text_type st2).2.
Proof.
  intros Henter Hrun. unfold with_styles in Hrun.
  destruct (Styles_enter self st) as [[self1 st1] r1] eqn:E.
  simpl in Henter; subst r1.
  assert (Hctx : exists g, rc_context self1 = Some g).
  { unfold Styles_enter in E.
    destruct (rc_context_enter (theme self) st) as [s [e|g]].
    - destruct (set_export_text_type s); discriminate.
    - destruct (set_export_text_type s) as [s' r']. injection E as <- _ _. by exists g. }
  destruct Hctx as [g Hg].
  destruct (body st1) as [st3 r3].
  unfold Styles_exit in Hrun. rewrite Hg in Hrun.
  destruct (rc_context_exit g st3) as [st4 [e|u]];
    injection Hrun as <- _ _; simpl;
    (split; [done |]); unfold Styles_enter; simpl;
    destruct (set_export_text_type st2); done.
Qed.

Lemma Styles_reentry_applies_no_theme_witness :
  (Styles_enter styles_pub rc_example).2 = inr tt /\
  theme (with_styles styles_pub raising_block rc_example).1.1 = None.
Proof.
  assert (He : (Styles_enter styles_pub rc_example).2 = inr tt) by (vm_compute; reflexivity).
  split; [exact He |].
  destruct (with_styles styles_pub raising_block rc_example) as [[A' st'] r] eqn:E.
  exact (proj1 (Styles_reentry_applies_no_theme styles_pub raising_block rc_example
                  rc_example A' st' r He E)).
Defined.

(** ** The science logger *)
Import Utils.

Lemma handlers_of_add nm h w : handlers_of (add_handler nm h w) nm = handlers_of w nm ++ [h].
Proof. unfold handlers_of, add_handler. simpl. by rewrite lookup_insert_eq. Qed.

Lemma handlers_of_set_level nm lvl w : handlers_of (set_level nm lvl w) nm = handlers_of w nm.
Proof. done. Qed.

Lemma handlers_of_set_fs f nm w : handlers_of (set_fs f w) nm = handlers_of w nm.
Proof. done. Qed.

Lemma fs_of_add nm h w : w_fs (add_handler nm h w) = w_fs w.
Proof. done. Qed.

(** The console handler attached when some threshold is at least [SHOW]. *)
Definition console_handlers (figures statistics integrity : Options) : list handler :=
  if existsb (fun o => opt_ge o SHOW) [figures; statistics; integrity]
  then [StreamHandler _LOG_LEVEL ScienceConsoleFormatter] else [].

Definition run_fs : fs :=
  mkFs {[ ["base"]; ["base"; "run"]; ["base"; "run"; "data"]; ["base"; "run"; "stats"] ]}
       {[ ["base"; "run"; "data"; "sample_01.csv"] := "1,2" ]}.

Definition run_world : world := mkWorld run_fs ∅ ∅.

(** C3 as stated fails: with the figures threshold at [SAVE] and the two
    others at [SHOW], no file handler is attached. *)
Lemma ScienceLogger_figures_save_no_file_sink :
  ~ exists p mode enc lvl fmt,
      In (FileHandler p mode enc lvl fmt)
         (handlers_of (ScienceLogger_init "run" ["base"] SAVE SHOW SHOW run_world).1 "run").
Proof.
  intros (p & mode & enc & lvl & fmt & H). vm_compute in H.
  destruct H as [H|[]]. discriminate.
Qed.

(** C3 (as the code behaves): the file sink depends on the statistics and
    integrity thresholds only.  If one of them is [SAVE] and the stats
    directory exists, the log file [stats_file] is created empty when
    absent and a handler appending raw messages to it is attached; if
    neither is [SAVE], no file handler is attached and no file is made. *)
Theorem ScienceLogger_file_sink (nm : string) (dir : path)
    (figures statistics integrity : Options) (w : world) :
  is_dir (w_fs w) dir = true ->
  let self := mkLogger nm dir figures statistics integrity in
  (opt_ge statistics SAVE || opt_ge integrity SAVE = true ->
   is_dir (w_fs w) (parent (stats_file self)) = true ->
   is_dir (w_fs w) (stats_file self) = false ->
   exists w', ScienceLogger_init nm dir figures statistics integrity w = (w', inr self) /\
     fs_files (w_fs w') !! stats_file self
       = Some (default "" (fs_files (w_fs w) !! stats_file self)) /\
     handlers_of w' nm = handlers_of w nm ++ console_handlers figures statistics integrity
                         ++ [FileHandler (stats_file self) "a" "utf-8" INFO
                                         (Formatter "%(message)s")]) /\
  (opt_ge statistics SAVE || opt_ge integrity SAVE = false ->
   exists w', ScienceLogger_init nm dir figures statistics integrity w = (w', inr self) /\
     w_fs w' = w_fs w /\
     handlers_of w' nm = handlers_of w nm ++ console_handlers figures statistics integrity).
Proof.
  intros Hdir self.
  assert (Hpre : is_dir (w_fs w) dir && path_exists (w_fs w) dir = true).
  { unfold path_exists, is_dir in *. by rewrite Hdir. }
  set (w1 := if existsb (fun o => opt_ge o SHOW) [figures; statistics; integrity]
             then add_handler nm (StreamHandler _LOG_LEVEL ScienceConsoleFormatter)
                    (set_level nm _LOG_LEVEL w)
             else set_level nm _LOG_LEVEL w).
  assert (Hw1 : handlers_of w1 nm = handlers_of w nm ++ console_handlers figures statistics integrity
                /\ w_fs w1 = w_fs w).
  { unfold w1, console_handlers.
    destruct (existsb _ _); [rewrite handlers_of_add | rewrite app_nil_r]; done. }
  destruct Hw1 as [Hh1 Hf1].
  unfold ScienceLogger_init. rewrite Hpre. simpl negb. cbv iota.
  fold self. fold w1. simpl existsb. rewrite orb_false_r.
  split.
  - intros Hsave Hparent Hnotdir. rewrite Hsave.
    destruct (path_exists (w_fs w1) (stats_file self)) eqn:Hex.
    + (* the file is there already *)
      unfold open_append. rewrite Hf1, Hnotdir.
      unfold path_exists in Hex. rewrite Hf1, orb_true_iff in Hex.
      destruct Hex as [Hd|Hf].
      { unfold is_dir in Hnotdir. by rewrite Hd in Hnotdir. }
      apply bool_decide_eq_true in Hf. destruct Hf as [c Hc]. rewrite Hc.
      eexists; split; [reflexivity |]. split.
      * simpl. by rewrite Hc.
      * rewrite handlers_of_add, handlers_of_set_fs, Hh1. by rewrite <- app_assoc.
    + unfold open_write_empty. rewrite Hf1, Hnotdir, Hparent.
      unfold open_append. simpl. unfold is_dir in *. simpl.
      rewrite Hnotdir, lookup_insert_eq.
      eexists; split; [reflexivity |]. split.
      * simpl. rewrite lookup_insert_eq. unfold path_exists in Hex.
        rewrite Hf1, orb_false_iff in Hex. destruct Hex as [_ Hf].
        apply bool_decide_eq_false in Hf.
        by destruct (fs_files (w_fs w) !! stats_file self); [exfalso; apply Hf |].
      * rewrite handlers_of_add, handlers_of_set_fs, Hh1. by rewrite <- app_assoc.
  - intros Hnosave. rewrite Hnosave. eexists; split; [reflexivity | done].
Qed.

Lemma ScienceLogger_file_sink_witness :
  is_dir (w_fs run_world) ["base"] = true /\
  handlers_of (ScienceLogger_init "run" ["base"] SHOW SAVE SHOW run_world).1 "run"
  = [StreamHandler INFO ScienceConsoleFormatter;
     FileHandler ["base"; "run"; "stats"; "run_stats.txt"] "a" "utf-8" INFO
                 (Formatter "%(message)s")].
Proof.
  assert (Hd : is_dir (w_fs run_world) ["base"] = true) by (vm_compute; reflexivity).
  split; [exact Hd |].
  destruct (proj1 (ScienceLogger_file_sink "run" ["base"] SHOW SAVE SHOW run_world Hd)
              eq_refl ltac:(vm_compute; reflexivity) ltac:(vm_compute; reflexivity))
    as (w' & Hrun & _ & Hh).
  rewrite Hrun. simpl. rewrite Hh. vm_compute. reflexivity.
Defined.

(** C6 as stated fails: the log file is [<base>/<name>/stats/<name>_stats.txt],
    not [<base>/<name>/<name>_log.txt]. *)
Lemma ScienceLogger_log_file_not_name_log :
  match (ScienceLogger_init "run" ["base"] SHOW SHOW SHOW run_world).2 with
  | inr self => stats_file self ≠ ["base"; "run"; "run_log.txt"]
  | inl _ => False
  end.
Proof. vm_compute. discriminate. Qed.

(** C6 (as the code behaves): a logger built from run name [nm] and base
    directory [dir] has data directory [dir/nm/data], figures directory
    [dir/nm/figures] and log file [dir/nm/stats/nm_stats.txt]. *)
Theorem ScienceLogger_paths (nm : string) (dir : path)
    (figures statistics integrity : Options) (w w' : world) (self : ScienceLogger) :
  ScienceLogger_init nm dir figures statistics integrity w = (w', inr self) ->
  data_directory self = dir ++ [nm; "data"] /\
  figures_directory self = dir ++ [nm; "figures"] /\
  stats_file self = dir ++ [nm; "stats"; nm +:+ "_stats.txt"].
Proof.
  intros H. unfold ScienceLogger_init in H.
  assert (Hself : self = mkLogger nm dir figures statistics integrity).
  { repeat case_match; simplify_eq; done. }
  by subst self.
Qed.

Lemma ScienceLogger_paths_witness :
  (ScienceLogger_init "run" ["base"] SHOW SHOW SHOW run_world).2
    = inr (mkLogger "run" ["base"] SHOW SHOW SHOW) /\
  stats_file (mkLogger "run" ["base"] SHOW SHOW SHOW)
    = ["base"; "run"; "stats"; "run_stats.txt"].
Proof.
  assert (H : ScienceLogger_init "run" ["base"] SHOW SHOW SHOW run_world
              = ((ScienceLogger_init "run" ["base"] SHOW SHOW SHOW run_world).1,
                 inr (mkLogger "run" ["base"] SHOW SHOW SHOW)))
    by (vm_compute; reflexivity).
  split; [rewrite H; reflexivity |].
  exact (proj2 (proj2 (ScienceLogger_paths "run" ["base"] SHOW SHOW SHOW run_world _ _ H))).
Defined.

Definition logger_show : ScienceLogger := mkLogger "run" ["base"] SHOW SHOW SHOW.

(** With the statistics threshold below [SHOW], [stats] does nothing: in
    particular the table formatter is not called. *)
Lemma stats_below_show_no_op {frame : Type} (to_pandas : frame -> frame)
    (tab str_pl str_pd : frame -> string) (self : ScienceLogger) (m : message) :
  _STATISTICS self = SKIP -> stats to_pandas tab str_pl str_pd self m = [].
Proof. intros H. unfold stats. by rewrite H. Qed.

(** C4: with both thresholds at [SHOW], [stats] formats a pandas table with
    the table formatter before logging it in the banner, but [integrity]
    given the same table makes no formatter call and logs [str(table)]. *)
Theorem integrity_table_not_formatted {frame : Type} (to_pandas : frame -> frame)
    (tab str_pl str_pd : frame -> string) (t : frame) :
  integrity str_pl str_pd logger_show (MPandas t) = [ELog INFO (banner (str_pd t))] /\
  stats to_pandas tab str_pl str_pd logger_show (MPandas t)
    = [ETabulate t; ELog INFO (banner (tab t))].
Proof. split; reflexivity. Qed.

(** C5: [find_data] raises [FileNotFoundError] when no entry below the
    data directory matches [*name*], returns the match when there is
    exactly one, and logs a warning and returns [None] when there are two
    or more. *)
Theorem find_data_cases {frame : Type} (fnmatch : string -> string -> bool)
    (self : ScienceLogger) (data_name : string) (f : fs) :
  let matches := rglob fnmatch (data_directory self) ("*" +:+ data_name +:+ "*") f in
  (size matches = 0 ->
   exists evs, find_data (frame:=frame) fnmatch self data_name f = (evs, inl FileNotFoundError)) /\
  (size matches = 1 ->
   exists p, matches = {[p]} /\
             find_data (frame:=frame) fnmatch self data_name f = ([], inr (Some p))) /\
  (2 <= size matches ->
   exists msg, find_data (frame:=frame) fnmatch self data_name f = ([ELog WARNING msg], inr None)).
Proof.
  intros matches. unfold find_data. fold matches. split; [| split].
  - intros H0. rewrite H0. simpl. by eexists.
  - intros H1. rewrite H1. simpl.
    apply size_1_elem_of in H1 as [p Hp]. apply leibniz_equiv in Hp.
    exists p. split; [done |]. by rewrite Hp, elements_singleton.
  - intros H2. destruct (Nat.ltb_spec 1 (size matches)); [| lia]. by eexists.
Qed.

(** pathlib's component matching, for the patterns [*name*] used here. *)
Definition contains_match (component pattern : string) : bool :=
  let inner := String.substring 1 (String.length pattern - 2) pattern in
  match String.index 0 inner component with Some _ => true | None => false end.

Lemma find_data_cases_witness :
  size (rglob contains_match (data_directory logger_show) ("*" +:+ "sample" +:+ "*") run_fs) = 1 /\
  exists p, rglob contains_match (data_directory logger_show) ("*" +:+ "sample" +:+ "*") run_fs
            = {[p]} /\
    find_data (frame:=unit) contains_match logger_show "sample" run_fs = ([], inr (Some p)).
Proof.
  assert (H1 : size (rglob contains_match (data_directory logger_show)
                           ("*" +:+ "sample" +:+ "*") run_fs) = 1)
    by (vm_compute; reflexivity).
  split; [exact H1 |].
  exact (proj1 (proj2 (find_data_cases (frame:=unit) contains_match logger_show "sample" run_fs))
               H1).
Defined.

(** ** Default colors *)

Example get_defaults_samples :
  map Colors.get_defaults [0; 1; 4; 5; 17; -1]%Z
  = map (fun c => inr (Colors.value c))
        [Colors.DESATURATED_RED; Colors.DESATURATED_BLUE; Colors.DESATURATED_PURPLE;
         Colors.DESATURATED_RED; Colors.DESATURATED_GREEN; Colors.DESATURATED_PURPLE].
Proof. reflexivity. Qed.

(** C9: for every integer [idx], negative ones included, [get_defaults idx]
    returns [DEFAULTS[idx mod 5]] with [0 <= idx mod 5 < 5]: it never
    raises and cycles through the five default colors. *)
Theorem get_defaults_cyclic (idx : Z) :
  length Colors.DEFAULTS = 5%nat /\
  (0 <= idx mod 5 < 5)%Z /\
  (exists c, Colors.DEFAULTS !! Z.to_nat (idx mod 5) = Some c /\
             Colors.get_defaults idx = inr c) /\
  Colors.get_defaults (idx + 5) = Colors.get_defaults idx.
Proof.
  assert (Hb : (0 <= idx mod 5 < 5)%Z) by (apply Z.mod_pos_bound; lia).
  assert (Hp : ((idx + 5) mod 5 = idx mod 5)%Z).
  { rewrite Z.add_mod, Z.mod_same, Z.add_0_r, Z.mod_mod by lia. reflexivity. }
  split; [reflexivity | split; [exact Hb |]].
  unfold Colors.get_defaults. change (Z.of_nat (length Colors.DEFAULTS)) with 5%Z.
  rewrite Hp. split; [| reflexivity].
  assert (Hc : (idx mod 5 = 0 \/ idx mod 5 = 1 \/ idx mod 5 = 2 \/
                idx mod 5 = 3 \/ idx mod 5 = 4)%Z) by lia.
  destruct Hc as [-> | [-> | [-> | [-> | ->]]]]; eexists; split; reflexivity.
Qed.

(** ** The fixed-size subplot grid *)
Import Layout.
Local Open Scope Q_scope.

Lemma py_div_ok x y : ~ y == 0 -> py_div x y = inr (x / y).
Proof.
  intros H. unfold py_div. destruct (Qeq_bool y 0) eqn:E; [| done].
  apply Qeq_bool_eq in E. contradiction.
Qed.

Lemma map_exc_ok {A B} (f : A -> exc + B) (g : A -> B) (l : list A) :
  (forall x, In x l -> f x = inr (g x)) -> map_exc f l = inr (map g l).
Proof.
  induction l as [|x rest IH]; intros Hf; simpl; [done |].
  rewrite Hf by (left; done). simpl. rewrite IH; [done |].
  intros y Hy. apply Hf. by right.
Qed.

Lemma QofNat_pos n : (0 < n)%nat -> 0 < QofNat n.
Proof.
  intros H. unfold QofNat. change 0 with (inject_Z 0).
  rewrite <- Zlt_Qlt. lia.
Qed.

(** C8: for positive counts and sizes, [fixed_size_subplots] makes a
    figure of size [(ncols * (2*margin + subwidth), nrows * (2*header +
    subheight))] and an [nrows] by [ncols] grid of axes; cell [(i, j)] has
    origin [((margin + j*(2*margin + subwidth)) / width,
    (height - (i+1)*(2*header + subheight) + header) / height)] and extent
    [(subwidth / width, subheight / height)].  For [(2, 3, 0.5, 0.5, 2.0,
    1.75)] the size is [(9.0, 5.5)] and the six extents are
    [(2.0/9.0, 1.75/5.5)]. *)
Theorem fixed_size_subplots_layout :
  (forall (nrows ncols : nat) (m h b a : Q),
    (0 < nrows)%nat -> (0 < ncols)%nat -> 0 < m -> 0 < h -> 0 < b -> 0 < a ->
    exists fig axarr,
      fixed_size_subplots nrows ncols m h b a = inr (fig, axarr) /\
      fst (figsize fig) == QofNat ncols * (2 * m + b) /\
      snd (figsize fig) == QofNat nrows * (2 * h + a) /\
      length axarr = nrows /\ Forall (fun row => length row = ncols) axarr /\
      axes fig = concat axarr /\
      forall i j, (i < nrows)%nat -> (j < ncols)%nat ->
        axarr !! i ≫= (.!! j)
        = Some [(m + QofNat j * (2 * m + b)) / fst (figsize fig);
                (snd (figsize fig) - QofNat (i + 1) * (2 * h + a) + h) / snd (figsize fig);
                b / fst (figsize fig);
                a / snd (figsize fig)]) /\
  (exists fig axarr,
     fixed_size_subplots 2 3 (1 # 2) (1 # 2) 2 (7 # 4) = inr (fig, axarr) /\
     fst (figsize fig) == 9 /\ snd (figsize fig) == 11 # 2 /\
     length (axes fig) = 6%nat /\
     Forall (fun rect => nth 2 rect 0 == 2 / 9 /\ nth 3 rect 0 == (7 # 4) / (11 # 2))
            (axes fig)).
Proof.
  split.
  - intros nrows ncols m h b a Hr Hc Hm Hh Hb Ha.
    set (W := QofNat ncols * (m + b + m)).
    set (H := QofNat nrows * (h + a + h)).
    assert (HW : 0 < W) by (apply Qmult_lt_0_compat; [by apply QofNat_pos | lra]).
    assert (HH : 0 < H) by (apply Qmult_lt_0_compat; [by apply QofNat_pos | lra]).
    assert (HW0 : ~ W == 0) by (intros E; rewrite E in HW; apply (Qlt_irrefl 0 HW)).
    assert (HH0 : ~ H == 0) by (intros E; rewrite E in HH; apply (Qlt_irrefl 0 HH)).
    set (rect := fun i j : nat =>
                   [(m + QofNat j * (2 * m + b)) / W;
                    (H - QofNat (i + 1) * (2 * h + a) + h) / H; b / W; a / H]).
    set (grid := map (fun i => map (rect i) (seq 0 ncols)) (seq 0 nrows)).
    exists (mkFigure (W, H) (concat grid)), grid.
    split.
    + unfold fixed_size_subplots. fold W H.
      unfold plt_figure.
      assert (Hle : Qle_bool 0 W && Qle_bool 0 H = true).
      { apply andb_true_iff; split; apply Qle_bool_iff; by apply Qlt_le_weak. }
      rewrite Hle. simpl.
      rewrite (map_exc_ok _ (fun i => map (rect i) (seq 0 ncols))); [done |].
      intros i _. apply map_exc_ok. intros j _.
      unfold cell_rect. rewrite !py_div_ok by done. reflexivity.
    + cbn [figsize axes fst snd]. split; [unfold W; ring |]. split; [unfold H; ring |].
      split; [unfold grid; by rewrite length_map, length_seq |].
      split.
      { apply Forall_forall. intros row Hrow. unfold grid in Hrow.
        apply list_elem_of_In, in_map_iff in Hrow as (i & <- & _).
        by rewrite length_map, length_seq. }
      split; [done |].
      intros i j Hi Hj. unfold grid.
      rewrite list_lookup_fmap, lookup_seq_lt by done. simpl.
      rewrite list_lookup_fmap, lookup_seq_lt by done. reflexivity.
  - eexists _, _. split; [vm_compute; reflexivity |].
    split; [vm_compute; reflexivity |]. split; [vm_compute; reflexivity |].
    split; [vm_compute; reflexivity |].
    vm_compute. repeat constructor.
Qed.

Lemma fixed_size_subplots_layout_witness :
  exists fig axarr,
    fixed_size_subplots 2 3 (1 # 2) (1 # 2) 2 (7 # 4) = inr (fig, axarr) /\
    fst (figsize fig) == QofNat 3 * (2 * (1 # 2) + 2).
Proof.
  destruct (proj1 fixed_size_subplots_layout 2%nat 3%nat (1 # 2) (1 # 2) 2 (7 # 4)
              ltac:(lia) ltac:(lia) ltac:(vm_compute; reflexivity)
              ltac:(vm_compute; reflexivity) ltac:(vm_compute; reflexivity)
              ltac:(vm_compute; reflexivity))
    as (fig & axarr & Hrun & Hw & _).
  exists fig, axarr. split; [exact Hrun | exact Hw].
Defined.

Local Close Scope Q_scope.

(** ** Saving figures *)
Import Figures.

Lemma string_length_app (s1 s2 : string) :
  String.length (s1 +:+ s2) = String.length s1 + String.length s2.
Proof. induction s1 as [|c s1 IH]; simpl; [done | by rewrite IH]. Qed.

Lemma rfind_from_app c (s1 s2 : string) i acc :
  rfind_from c (s1 +:+ s2) i acc
  = rfind_from c s2 (i + String.length s1) (rfind_from c s1 i acc).
Proof.
  revert i acc; induction s1 as [|c' s1 IH]; intros i acc; simpl.
  - by rewrite Nat.add_0_r.
  - rewrite IH. f_equal. lia.
Qed.

Lemma str_drop_app (s1 s2 : string) : str_drop (String.length s1) (s1 +:+ s2) = s2.
Proof. by induction s1. Qed.

Lemma length_str_drop n (s : string) :
  String.length (str_drop n s) = String.length s - n.
Proof.
  revert s; induction n as [|n IH]; intros [|c s]; simpl; auto; lia.
Qed.

Lemma str_take_nonempty n (s : string) :
  0 < n -> n <= String.length s -> str_take n s ≠ "".
Proof. destruct n, s; simpl; intros; try lia; done. Qed.

(** A component [nm.pdf] with a non-empty [nm] has the suffix [.pdf]. *)
Lemma suffix_pdf (dir : path) (nm : string) :
  nm ≠ "" -> suffix (dir ++ [nm +:+ ".pdf"]) = ".pdf".
Proof.
  intros Hnm. unfold suffix, basename. rewrite last_snoc. simpl default.
  unfold str_rfind. rewrite rfind_from_app. simpl rfind_from at 1.
  rewrite string_length_app. simpl String.length at 2.
  assert (Hpos : 0 < String.length nm) by (destruct nm; [done | simpl; lia]).
  simpl Nat.add.
  replace (Nat.ltb 0 (String.length nm)) with true by (symmetry; apply Nat.ltb_lt; lia).
  replace (Nat.ltb (String.length nm) (String.length nm + 4 - 1)) with true
    by (symmetry; apply Nat.ltb_lt; lia).
  apply str_drop_app.
Qed.

Lemma suffix_cases (p : path) :
  suffix p = "" \/
  exists i, 0 < i < String.length (basename p) /\ suffix p = str_drop i (basename p).
Proof.
  unfold suffix. destruct (str_rfind "." (basename p)) as [i|]; [| by left].
  destruct (Nat.ltb 0 i) eqn:H1, (Nat.ltb i (String.length (basename p) - 1)) eqn:H2;
    simpl; try by left.
  right. apply Nat.ltb_lt in H1, H2. exists i. split; [lia | done].
Qed.

(** [export_for_pub] saves with [transparent=True] to a path in the same
    directory whose suffix is [.pdf]; a path whose suffix already is
    [.pdf] is used as given; a path with an empty name (e.g. [Path(".")])
    raises [ValueError] from [with_suffix]. *)
Theorem export_for_pub_pdf (p : path) :
  (basename p ≠ "" ->
   exists q, export_for_pub p = inr (FSave q true) /\ suffix q = ".pdf" /\
             parent q = parent p /\ (suffix p = ".pdf" -> q = p)) /\
  (basename p = "" -> export_for_pub p = inl ValueError).
Proof.
  unfold export_for_pub. split.
  - intros Hnm. destruct (String.eqb (suffix p) ".pdf") eqn:E.
    + apply String.eqb_eq in E. exists p. done.
    + unfold with_suffix.
      change (str_has "/" ".pdf") with false.
      change ((negb (String.eqb ".pdf" "") && negb (String.prefix "." ".pdf"))
              || String.eqb ".pdf" ".") with false. cbv iota.
      destruct (String.eqb (basename p) "") eqn:En;
        [apply String.eqb_eq in En; contradiction |].
      destruct (suffix_cases p) as [Hs | (i & Hi & Hs)].
      * rewrite Hs. simpl String.eqb. cbv iota.
        eexists; split; [reflexivity |]. split; [by apply suffix_pdf |].
        split; [unfold parent; apply removelast_last |].
        intros Hpdf. discriminate.
      * assert (Hne : String.eqb (suffix p) "" = false).
        { apply String.eqb_neq. rewrite Hs. intros Hd.
          apply (f_equal String.length) in Hd. rewrite length_str_drop in Hd.
          simpl in Hd. lia. }
        rewrite Hne. cbv iota.
        eexists; split; [reflexivity |]. split.
        { apply suffix_pdf, str_take_nonempty; rewrite Hs, length_str_drop; lia. }
        split; [unfold parent; apply removelast_last |].
        intros Hpdf. rewrite Hpdf in E. discriminate.
  - intros Hnm. unfold suffix, with_suffix. rewrite Hnm. reflexivity.
Qed.

Lemma export_for_pub_pdf_witness :
  basename ["figures"; "plot.png"] ≠ "" /\
  exists q, export_for_pub ["figures"; "plot.png"] = inr (FSave q true) /\
            suffix q = ".pdf" /\ parent q = ["figures"].
Proof.
  split; [discriminate |].
  destruct (proj1 (export_for_pub_pdf ["figures"; "plot.png"]) ltac:(discriminate))
    as (q & Hq & Hs & Hp & _).
  exists q. split; [exact Hq |]. split; [exact Hs | exact Hp].
Defined.



(** ** Creating directories *)
Import Dirs.

Lemma walk_cases (f : fs) (ps : list path) :
  walk f ps = None \/ walk f ps = Some FileNotFoundError \/
  (walk f ps = Some NotADirectoryError /\ exists q, In q ps /\ is_Some (fs_files f !! q)).
Proof.
  induction ps as [|q ps IH]; simpl; [by left |].
  unfold is_dir, path_exists.
  destruct (bool_decide (q ∈ fs_dirs f)) eqn:Hd; simpl.
  - destruct IH as [H|[H|[H (q' & Hq' & Hf)]]]; auto.
    right; right. split; [done |]. exists q'. auto.
  - destruct (bool_decide (is_Some (fs_files f !! q))) eqn:Hf; simpl; auto.
    right; right. split; [done |]. exists q.
    split; [auto | by apply bool_decide_eq_true in Hf].
Qed.

Lemma walk_none_dirs (f : fs) (ps : list path) :
  walk f ps = None -> forall q, In q ps -> q ∈ fs_dirs f.
Proof.
  induction ps as [|q ps IH]; simpl; [done |].
  unfold is_dir. case_bool_decide as Hd.
  - intros Hw q' [<-|Hq']; [done | by apply IH].
  - by destruct (path_exists f q).
Qed.

Lemma walk_all_dirs (f : fs) (ps : list path) :
  (forall q, In q ps -> q ∈ fs_dirs f) -> walk f ps = None.
Proof.
  induction ps as [|q ps IH]; intros Hall; simpl; [done |].
  unfold is_dir. rewrite bool_decide_eq_true_2 by (apply Hall; by left).
  apply IH. intros q' Hq'. apply Hall. by right.
Qed.

Lemma proper_prefix (q p : path) :
  In q (map (fun n => take n p) (seq 1 (length p - 1))) ->
  q `prefix_of` removelast p /\ q ≠ [].
Proof.
  intros Hq. apply in_map_iff in Hq as (n & <- & Hn). apply in_seq in Hn.
  split.
  - rewrite removelast_firstn_len.
    replace (take n p) with (take n (firstn (pred (length p)) p)).
    + apply prefix_take.
    + change (firstn (pred (length p)) p) with (take (pred (length p)) p).
      rewrite take_take. f_equal. lia.
  - intros Hnil. apply (f_equal length) in Hnil.
    rewrite length_take in Hnil. simpl in Hnil. lia.
Qed.

Lemma prefix_proper (q p : path) :
  q `prefix_of` p -> q ≠ [] -> q ≠ p ->
  In q (map (fun n => take n p) (seq 1 (length p - 1))).
Proof.
  intros [r ->] Hq Hne. apply in_map_iff. exists (length q).
  split; [apply take_app_length |].
  apply in_seq. rewrite length_app.
  destruct q; [done |]. destruct r; [by rewrite app_nil_r in Hne |]. simpl. lia.
Qed.

Lemma prefix_removelast (q p : path) :
  q `prefix_of` p -> q = p \/ q `prefix_of` removelast p.
Proof.
  intros [r ->]. destruct r as [|x r] using rev_ind.
  - left. by rewrite app_nil_r.
  - right. rewrite app_assoc, removelast_last. by apply prefix_app_r.
Qed.

Lemma removelast_prefix (p : path) : removelast p `prefix_of` p.
Proof.
  destruct p as [|x p] using rev_ind; [done |].
  rewrite removelast_last. by apply prefix_app_r.
Qed.

Lemma removelast_neq (p : path) : p ≠ [] -> removelast p ≠ p.
Proof.
  intros Hne Heq. destruct p as [|x p] using rev_ind; [done |].
  rewrite removelast_last in Heq. apply (f_equal length) in Heq.
  rewrite length_app in Heq. simpl in Heq. lia.
Qed.

Lemma length_removelast (p : path) : length (removelast p) = length p - 1.
Proof.
  destruct p as [|x p] using rev_ind; [done |].
  rewrite removelast_last, length_app. simpl. lia.
Qed.

(** [Path.mkdir(parents=True, exist_ok=True)] succeeds when no prefix of
    the path is a file: every prefix is then a directory, existing
    directories stay and no file changes. *)
Lemma mkdir_parents_ok n (p : path) (f : fs) :
  length p = n -> p ≠ [] ->
  (forall q, q `prefix_of` p -> q ≠ [] -> fs_files f !! q = None) ->
  exists f', mkdir_parents n p f = inr f' /\ fs_files f' = fs_files f /\
    fs_dirs f ⊆ fs_dirs f' /\ (forall q, q `prefix_of` p -> q ≠ [] -> q ∈ fs_dirs f').
Proof.
  revert p f; induction n as [|n IH]; intros p f Hlen Hne Hfiles.
  { destruct p; simpl in Hlen; [done | lia]. }
  set (L := map (fun n => take n p) (seq 1 (length p - 1))).
  assert (HL : forall q, In q L -> q `prefix_of` removelast p /\ q ≠ [])
    by (intros q Hq; apply proper_prefix; exact Hq).
  assert (Hpfx : forall q, q `prefix_of` removelast p -> q `prefix_of` p)
    by (intros q Hq; etrans; [exact Hq | apply removelast_prefix]).
  cbn [mkdir_parents]. unfold os_mkdir at 1. fold L.
  destruct (walk_cases f L) as [Hw | [Hw | [Hw (q & Hq & Hf)]]]; rewrite Hw.
  - destruct (path_exists f p) eqn:Hex.
    + assert (Hd : p ∈ fs_dirs f).
      { unfold path_exists in Hex. apply orb_true_iff in Hex as [H|H].
        - by apply bool_decide_eq_true in H.
        - apply bool_decide_eq_true in H. rewrite Hfiles in H by done. by destruct H. }
      unfold is_dir. rewrite bool_decide_eq_true_2 by done.
      exists f. split; [done |]. split; [done |]. split; [done |].
      intros q Hq Hqne. destruct (decide (q = p)) as [->|Hqp]; [done |].
      apply (walk_none_dirs f L Hw). by apply prefix_proper.
    + eexists; split; [reflexivity |]. simpl. split; [done |]. split; [set_solver |].
      intros q Hq Hqne. apply elem_of_union.
      destruct (decide (q = p)) as [->|Hqp]; [left; set_solver |].
      right. apply (walk_none_dirs f L Hw). by apply prefix_proper.
  - assert (HLne : L ≠ []) by (intros HL0; rewrite HL0 in Hw; discriminate).
    assert (Hlen2 : 2 <= length p).
    { destruct (length p - 1) eqn:E; [| lia]. exfalso. apply HLne. unfold L. rewrite ?E. reflexivity. }
    rewrite bool_decide_eq_false_2 by (unfold parent; by apply removelast_neq).
    destruct (IH (parent p) f) as (f1 & Hrun & Hfiles1 & Hsub1 & Hdirs1).
    { unfold parent. rewrite length_removelast. lia. }
    { unfold parent. intros H0. apply (f_equal length) in H0.
      rewrite length_removelast in H0. simpl in H0. lia. }
    { intros q Hq Hqne. apply Hfiles; [by apply Hpfx | done]. }
    rewrite Hrun. unfold mkdir_exist_ok, os_mkdir. fold L.
    rewrite walk_all_dirs by (intros q Hq; apply Hdirs1; apply HL; done).
    destruct (path_exists f1 p) eqn:Hex.
    + assert (Hd : p ∈ fs_dirs f1).
      { unfold path_exists in Hex. apply orb_true_iff in Hex as [H|H].
        - by apply bool_decide_eq_true in H.
        - apply bool_decide_eq_true in H. rewrite Hfiles1, Hfiles in H by done.
          by destruct H. }
      unfold is_dir. rewrite bool_decide_eq_true_2 by done.
      exists f1. split; [done |]. split; [done |]. split; [done |].
      intros q Hq Hqne. destruct (prefix_removelast q p Hq) as [->|Hq']; [done |].
      by apply Hdirs1.
    + eexists; split; [reflexivity |]. simpl. split; [done |]. split; [set_solver |].
      intros q Hq Hqne. apply elem_of_union.
      destruct (prefix_removelast q p Hq) as [->|Hq']; [left; set_solver |].
      right. by apply Hdirs1.
  - exfalso. destruct (HL q Hq) as [Hq1 Hq2].
    rewrite (Hfiles q (Hpfx q Hq1) Hq2) in Hf. by destruct Hf.
Qed.

Lemma snoc2_nonempty (base : path) (x y : string) : base ++ [x; y] ≠ [].
Proof. by destruct base. Qed.

(** [Directories(folder, base_directory)] creates [base/data/folder],
    [base/figures/folder] and [base/stats/folder], with every missing
    parent, when no prefix of these paths is an existing file; existing
    directories are accepted and kept, no file changes, and the
    dictionary maps ["data"], ["figures"] and ["stats"] to the three
    paths.  [base] is [base_directory], or [_BASE_DIRECTORY] when none is
    given. *)
Theorem Directories_creates (_BASE_DIRECTORY : path) (folder : string)
    (base_directory : option path) (f : fs) :
  let base := match base_directory with Some d => d | None => _BASE_DIRECTORY end in
  let targets := [base ++ ["data"; folder]; base ++ ["figures"; folder];
                  base ++ ["stats"; folder]] in
  (forall p q, In p targets -> q `prefix_of` p -> q ≠ [] -> fs_files f !! q = None) ->
  exists f', Directories _BASE_DIRECTORY folder base_directory f
    = (f', inr {[ "data" := base ++ ["data"; folder];
                  "figures" := base ++ ["figures"; folder];
                  "stats" := base ++ ["stats"; folder] ]}) /\
    fs_files f' = fs_files f /\ fs_dirs f ⊆ fs_dirs f' /\
    (forall p q, In p targets -> q `prefix_of` p -> q ≠ [] -> q ∈ fs_dirs f').
Proof.
  intros base targets Hfiles. unfold Directories. fold base.
  destruct (mkdir_parents_ok _ (base ++ ["data"; folder]) f eq_refl (snoc2_nonempty _ _ _))
    as (f1 & H1 & Hf1 & Hs1 & Hd1).
  { intros q Hq Hqne. apply (Hfiles (base ++ ["data"; folder])); [by left | done | done]. }
  unfold mkdir at 1. rewrite H1.
  destruct (mkdir_parents_ok _ (base ++ ["figures"; folder]) f1 eq_refl (snoc2_nonempty _ _ _))
    as (f2 & H2 & Hf2 & Hs2 & Hd2).
  { intros q Hq Hqne. rewrite Hf1.
    apply (Hfiles (base ++ ["figures"; folder])); [by right; left | done | done]. }
  unfold mkdir at 1. rewrite H2.
  destruct (mkdir_parents_ok _ (base ++ ["stats"; folder]) f2 eq_refl (snoc2_nonempty _ _ _))
    as (f3 & H3 & Hf3 & Hs3 & Hd3).
  { intros q Hq Hqne. rewrite Hf2, Hf1.
    apply (Hfiles (base ++ ["stats"; folder])); [by right; right; left | done | done]. }
  unfold mkdir at 1. rewrite H3.
  exists f3. split; [reflexivity |].
  split; [by rewrite Hf3, Hf2, Hf1 |]. split; [set_solver |].
  intros p q Hp Hq Hqne. destruct Hp as [<-|[<-|[<-|[]]]].
  - apply Hs3, Hs2, Hd1; done.
  - apply Hs3, Hd2; done.
  - apply Hd3; done.
Qed.

Lemma Directories_creates_witness :
  exists f', Directories ["Z:"] "session_1" (Some ["home"; "thesis"]) (mkFs {[ ["home"] ]} ∅)
    = (f', inr {[ "data" := ["home"; "thesis"; "data"; "session_1"];
                  "figures" := ["home"; "thesis"; "figures"; "session_1"];
                  "stats" := ["home"; "thesis"; "stats"; "session_1"] ]}) /\
    ["home"; "thesis"; "stats"; "session_1"] ∈ fs_dirs f'.
Proof.
  destruct (Directories_creates ["Z:"] "session_1" (Some ["home"; "thesis"])
              (mkFs {[ ["home"] ]} ∅) (fun p q _ _ _ => lookup_empty q))
    as (f' & Hrun & _ & _ & Hdirs).
  exists f'. split; [exact Hrun |].
  apply (Hdirs ["home"; "thesis"; "stats"; "session_1"]); [by right; right; left | done | done].
Defined.

(** ** [ListEnum] *)
Import ListEnumM.

Section ListEnumProps.
Context {V : Type} `{EqDecision V}.

Lemma list_index_spec (l : list V) (x : V) :
  match list_index l x with
  | inr i => l !! i = Some x /\ forall j, j < i -> l !! j ≠ Some x
  | inl e => e = ValueError /\ x ∉ l
  end.
Proof.
  induction l as [|y rest IH]; simpl.
  - split; [done | apply not_elem_of_nil].
  - destruct (decide (y = x)) as [->|Hyx].
    + split; [done | lia].
    + destruct (list_index rest x) as [e|i].
      * destruct IH as [-> Hx]. split; [done |]. apply not_elem_of_cons. auto.
      * destruct IH as [Hi Hj]. split; [done |].
        intros [|j] Hlt; simpl; [congruence |]. apply Hj. lia.
Qed.

(** [cls.index(v)] raises [ValueError] exactly when [cls.contains(v)] is
    false. *)
Theorem ListEnum_index_error (members : list (string * V)) (v : V) :
  contains members v = false <-> index members v = inl ValueError.
Proof.
  unfold contains, index. pose proof (list_index_spec (member_values members) v) as Hs.
  destruct (list_index (member_values members) v) as [e|i].
  - destruct Hs as [-> Hv]. split; [done |]. intros _. by apply bool_decide_eq_false.
  - destruct Hs as [Hi _]. split; [| done]. intros Hc.
    apply bool_decide_eq_false in Hc. exfalso. apply Hc. by eapply list_elem_of_lookup_2.
Qed.

(** For a contained value [v], [cls.get(cls.index(v))] is [v]. *)
Theorem ListEnum_get_index (members : list (string * V)) (v : V) :
  contains members v = true ->
  exists i, index members v = inr i /\ get members (Z.of_nat i) = inr v.
Proof.
  unfold contains, index, get. intros Hc. apply bool_decide_eq_true in Hc.
  pose proof (list_index_spec (member_values members) v) as Hs.
  destruct (list_index (member_values members) v) as [e|i].
  - destruct Hs as [_ Hv]. contradiction.
  - destruct Hs as [Hi _]. exists i. split; [done |].
    pose proof (lookup_lt_Some _ _ _ Hi) as Hlt.
    unfold Colors.py_index.
    replace (Z.ltb (Z.of_nat i) 0) with false by (symmetry; apply Z.ltb_ge; lia).
    replace (Z.leb 0 (Z.of_nat i) && Z.ltb (Z.of_nat i) (Z.of_nat (length (member_values members))))
      with true by (symmetry; apply andb_true_iff; split; [apply Z.leb_le | apply Z.ltb_lt]; lia).
    by rewrite Nat2Z.id, Hi.
Qed.

(** [cls.by_value(v)] returns the member at position [cls.index(v)] (the
    first member whose value is [v]), and the default [None] when no
    member has the value [v]. *)
Theorem ListEnum_by_value_index (members : list (string * V)) (v : V) :
  by_value members v = match index members v with
                       | inr i => members !! i
                       | inl _ => None
                       end.
Proof.
  unfold index, member_values.
  induction members as [|m rest IH]; simpl; [done |].
  destruct (decide (m.2 = v)); [done |].
  rewrite IH. by destruct (list_index (map snd rest) v).
Qed.


End ListEnumProps.

(** An enum [A = 1], [B = 2], [C = 1]: [C] is an alias of [A], so
    [__members__] lists the member [A] twice. *)
Definition enum_example : list (string * Z) := [("A", 1%Z); ("B", 2%Z); ("A", 1%Z)].

Lemma ListEnum_get_index_witness :
  exists i, index enum_example 2%Z = inr i /\ get enum_example (Z.of_nat i) = inr 2%Z.
Proof. apply ListEnum_get_index. reflexivity. Defined.


(** ** More on [Styles] *)

Lemma Styles_init_known registry (style : list string) :
  style ≠ [] ->
  Forall (fun s => is_Some (registry !! s)) style ->
  Styles_init registry style = inr (spec_override registry style).
Proof.
  intros Hne Hall.
  destruct style as [|s0 rest]; [done |].
  inversion Hall as [|? ? [d0 Hd0] Hrest]; subst.
  unfold Styles_init, lookup_style at 1. rewrite Hd0.
  rewrite merge_loop_all_known by done.
  destruct rest as [|s1 rest']; simpl; rewrite Hd0; simpl.
  - by rewrite !map_union_empty.
  - by rewrite (assoc_L (∪)), (idemp (∪)).
Qed.

Lemma spec_override_app registry (l1 l2 : list string) :
  spec_override registry (l1 ++ l2) = spec_override registry l1 ∪ spec_override registry l2.
Proof.
  induction l1 as [|s l1 IH]; simpl.
  - by rewrite map_empty_union.
  - by rewrite IH, (assoc_L (∪)).
Qed.

Lemma spec_override_dom registry (l : list string) s d :
  s ∈ l -> registry !! s = Some d -> dom d ⊆ dom (spec_override registry l).
Proof.
  induction l as [|s' l IH]; intros Hs Hd; [by apply not_elem_of_nil in Hs |].
  simpl. rewrite dom_union_L. apply elem_of_cons in Hs as [->|Hs].
  - rewrite Hd. simpl. set_solver.
  - specialize (IH Hs Hd). set_solver.
Qed.

(** Naming a style again after its first occurrence has no effect on the
    theme: the names [l1 ++ s :: l2] and [l1 ++ l2] build the same theme
    when [s] already occurs in [l1]. *)
Theorem Styles_init_repeat_no_effect registry (l1 l2 : list string) (s : string) :
  s ∈ l1 ->
  Forall (fun s => is_Some (registry !! s)) (l1 ++ s :: l2) ->
  Styles_init registry (l1 ++ s :: l2) = Styles_init registry (l1 ++ l2).
Proof.
  intros Hs Hall.
  assert (Hne : l1 ≠ []) by (intros ->; by apply not_elem_of_nil in Hs).
  apply Forall_app in Hall as [Hall1 Hall2]. inversion Hall2 as [|? ? [d Hd] Hall2']; subst.
  rewrite !Styles_init_known; [| by destruct l1 | by apply Forall_app
                              | by destruct l1 | by apply Forall_app].
  f_equal. rewrite !spec_override_app. simpl. rewrite Hd. simpl.
  pose proof (spec_override_dom registry l1 s d Hs Hd) as Hdom.
  apply map_eq. intros k. rewrite !lookup_union.
  destruct (spec_override registry l1 !! k) eqn:E1;
    [by destruct (d !! k), (spec_override registry l2 !! k) |].
  destruct (d !! k) eqn:E2; [| by destruct (spec_override registry l2 !! k)].
  exfalso. apply elem_of_dom_2 in E2. apply Hdom, elem_of_dom in E2.
  rewrite E1 in E2. by destruct E2.
Qed.

Lemma Styles_init_repeat_no_effect_witness :
  Styles_init reg_example ["pub"; "blank"; "pub"; "py-grid"]
  = Styles_init reg_example ["pub"; "blank"; "py-grid"].
Proof.
  apply (Styles_init_repeat_no_effect reg_example ["pub"; "blank"] ["py-grid"] "pub").
  - by left.
  - repeat constructor; vm_compute; eexists; reflexivity.
Defined.

(** Two adjacent styles whose presets have no key in common can be
    listed in either order: the theme is the same. *)
Theorem Styles_init_disjoint_swap registry (l1 l2 : list string) (s1 s2 : string) d1 d2 :
  registry !! s1 = Some d1 -> registry !! s2 = Some d2 -> dom d1 ## dom d2 ->
  Forall (fun s => is_Some (registry !! s)) (l1 ++ l2) ->
  Styles_init registry (l1 ++ s1 :: s2 :: l2) = Styles_init registry (l1 ++ s2 :: s1 :: l2).
Proof.
  intros H1 H2 Hdisj Hall. apply Forall_app in Hall as [Hall1 Hall2].
  rewrite !Styles_init_known; try by destruct l1.
  2: { apply Forall_app. split; [done |]. repeat constructor; [by rewrite H2 | by rewrite H1 | done]. }
  2: { apply Forall_app. split; [done |]. repeat constructor; [by rewrite H1 | by rewrite H2 | done]. }
  f_equal. rewrite !spec_override_app. simpl. rewrite H1, H2. simpl.
  f_equal. rewrite !(assoc_L (∪)). f_equal.
  apply map_union_comm. by apply map_disjoint_dom.
Qed.

Lemma Styles_init_disjoint_swap_witness :
  Styles_init reg_example ["py-grid"; "blank"] = Styles_init reg_example ["blank"; "py-grid"].
Proof.
  apply (Styles_init_disjoint_swap reg_example [] [] "py-grid" "blank"
           {[ "font.size" := RInt 10; "grid.color" := RStr "white" ]}
           {[ "axes.grid" := RBool true; "lines.linewidth" := RInt 1 ]});
    [reflexivity | reflexivity | | constructor].
  rewrite !dom_insert_L, !dom_singleton_L. set_solver.
Defined.











(** ** [desaturate] *)
Import Colors Colorsys.
Local Open Scope Q_scope.

Lemma hls_to_rgb_no_saturation h l s : s == 0 -> hls_to_rgb h l s = (l, l, l).
Proof.
  intros Hs. unfold hls_to_rgb.
  replace (Qeq_bool s 0) with true by (symmetry; by apply Qeq_bool_iff).
  reflexivity.
Qed.

Lemma max3_bounds x y z :
  x <= max3 x y z /\ y <= max3 x y z /\ z <= max3 x y z /\
  forall u, x <= u -> y <= u -> z <= u -> max3 x y z <= u.
Proof.
  unfold max3. pose proof (Q.le_max_l y z). pose proof (Q.le_max_r y z).
  pose proof (Q.le_max_l x (Qmax y z)). pose proof (Q.le_max_r x (Qmax y z)).
  split; [done |]. split; [lra |]. split; [lra |].
  intros u Hx Hy Hz. apply Q.max_lub; [done | by apply Q.max_lub].
Qed.

Lemma min3_bounds x y z :
  min3 x y z <= x /\ min3 x y z <= y /\ min3 x y z <= z /\
  forall u, u <= x -> u <= y -> u <= z -> u <= min3 x y z.
Proof.
  unfold min3. pose proof (Q.le_min_l y z). pose proof (Q.le_min_r y z).
  pose proof (Q.le_min_l x (Qmin y z)). pose proof (Q.le_min_r x (Qmin y z)).
  split; [done |]. split; [lra |]. split; [lra |].
  intros u Hx Hy Hz. apply Q.min_glb; [done | by apply Q.min_glb].
Qed.

(** [rgb_to_hls] raises nothing for channels in [[0, 1]]; its lightness
    is the mean of the largest and the smallest channel. *)
Lemma rgb_to_hls_ok r g b :
  0 <= r <= 1 -> 0 <= g <= 1 -> 0 <= b <= 1 ->
  exists h s, rgb_to_hls r g b = inr (h, (max3 r g b + min3 r g b) / 2, s).
Proof.
  intros Hr Hg Hb.
  destruct (max3_bounds r g b) as (Mr & Mg & Mb & Mlub).
  destruct (min3_bounds r g b) as (mr & mg & mb & mglb).
  assert (Hmax1 : max3 r g b <= 1) by (apply Mlub; lra).
  assert (Hmin0 : 0 <= min3 r g b) by (apply mglb; lra).
  unfold rgb_to_hls. cbv zeta.
  destruct (Qeq_bool (min3 r g b) (max3 r g b)) eqn:E; [by eexists _, _ |].
  apply Qeq_bool_neq in E.
  assert (Hlt : min3 r g b < max3 r g b).
  { destruct (Qlt_le_dec (min3 r g b) (max3 r g b)) as [H|H]; [done |].
    exfalso. apply E. lra. }
  assert (Hs : exists s,
             (if Qle_bool ((max3 r g b + min3 r g b) / 2) (1 # 2)
              then py_div (max3 r g b - min3 r g b) (max3 r g b + min3 r g b)
              else py_div (max3 r g b - min3 r g b) (2 - max3 r g b - min3 r g b)) = inr s).
  { destruct (Qle_bool _ _); eexists; apply py_div_ok; intros H; lra. }
  destruct Hs as [s Hs]. rewrite Hs. cbn [sbind].
  rewrite !py_div_ok by (intros H; lra). cbn [sbind].
  by eexists _, _.
Qed.

(** [desaturate(color, 0)], for channels in [[0, 1]], is the gray whose
    three channels are the lightness [(max + min) / 2] of [color]; the
    alpha of the result is [1.0]. *)
Theorem desaturate_zero_gray (c : Color) :
  0 <= r c <= 1 -> 0 <= g c <= 1 -> 0 <= b c <= 1 ->
  let l := (max3 (r c) (g c) (b c) + min3 (r c) (g c) (b c)) / 2 in
  desaturate c 0 = inr (mkColor l l l 1).
Proof.
  intros Hr Hg Hb l. unfold desaturate.
  destruct (rgb_to_hls_ok (r c) (g c) (b c) Hr Hg Hb) as (h & s & Hok).
  rewrite Hok. cbn [sbind].
  rewrite hls_to_rgb_no_saturation by ring. reflexivity.
Qed.

Lemma desaturate_zero_gray_witness :
  desaturate (value DESATURATED_RED) 0
  = inr (mkColor (((197 # 255) + (85 # 255)) / 2) (((197 # 255) + (85 # 255)) / 2)
                 (((197 # 255) + (85 # 255)) / 2) 1).
Proof.
  exact (desaturate_zero_gray (value DESATURATED_RED)
           ltac:(vm_compute; split; discriminate) ltac:(vm_compute; split; discriminate)
           ltac:(vm_compute; split; discriminate)).
Defined.

(** A gray ([r = g = b]) is left as it is by [desaturate], whatever the
    factor, except that its alpha becomes [1.0]. *)
Theorem desaturate_gray_fixed (c : Color) (factor : Q) :
  r c == g c -> g c == b c ->
  exists c', desaturate c factor = inr c' /\
             r c' == r c /\ g c' == g c /\ b c' == b c /\ a c' = 1.
Proof.
  intros Hrg Hgb.
  destruct (max3_bounds (r c) (g c) (b c)) as (Mr & Mg & Mb & Mlub).
  destruct (min3_bounds (r c) (g c) (b c)) as (mr & mg & mb & mglb).
  assert (HM : max3 (r c) (g c) (b c) == r c)
    by (apply Qle_antisym; [apply Mlub; lra | done]).
  assert (Hm : min3 (r c) (g c) (b c) == r c)
    by (apply Qle_antisym; [done | apply mglb; lra]).
  unfold desaturate, rgb_to_hls. cbv zeta.
  replace (Qeq_bool (min3 (r c) (g c) (b c)) (max3 (r c) (g c) (b c))) with true
    by (symmetry; apply Qeq_bool_iff; lra).
  cbn [sbind]. rewrite hls_to_rgb_no_saturation by ring.
  eexists. split; [reflexivity |]. cbn [Colors.r Colors.g Colors.b Colors.a Color3].
  assert (Hl : (max3 (r c) (g c) (b c) + min3 (r c) (g c) (b c)) / 2 == r c)
    by (rewrite HM, Hm; field).
  split; [exact Hl |]. split; [rewrite Hl; exact Hrg |].
  split; [rewrite Hl, Hrg; exact Hgb | done].
Qed.

Lemma desaturate_gray_fixed_witness :
  exists c', desaturate (value GRAY) (1 # 2) = inr c' /\ r c' == 128 # 255 /\ a c' = 1.
Proof.
  destruct (desaturate_gray_fixed (value GRAY) (1 # 2)
              ltac:(vm_compute; reflexivity) ltac:(vm_compute; reflexivity))
    as (c' & Hrun & Hr & _ & _ & Ha).
  exists c'. split; [exact Hrun |]. split; [exact Hr | exact Ha].
Defined.



(** ** Geometry of [fixed_size_subplots] *)

(** The rectangle [cell_rect] computes for cell [(i, j)] of a figure of
    size [(W, H)]. *)
Definition cell (m h a b W H : Q) (i j : nat) : list Q :=
  [(m + QofNat j * (2 * m + b)) / W; (H - QofNat (i + 1) * (2 * h + a) + h) / H;
   b / W; a / H].

Lemma fixed_size_subplots_grid (nrows ncols : nat) (m h b a : Q) :
  (0 < nrows)%nat -> (0 < ncols)%nat -> 0 <= m -> 0 <= h -> 0 < b -> 0 < a ->
  let W := QofNat ncols * (m + b + m) in
  let H := QofNat nrows * (h + a + h) in
  let grid := map (fun i => map (cell m h a b W H i) (seq 0 ncols)) (seq 0 nrows) in
  fixed_size_subplots nrows ncols m h b a = inr (mkFigure (W, H) (concat grid), grid).
Proof.
  intros Hr Hc Hm Hh Hb Ha W H grid.
  assert (HW : 0 < W) by (apply Qmult_lt_0_compat; [by apply QofNat_pos | lra]).
  assert (HH : 0 < H) by (apply Qmult_lt_0_compat; [by apply QofNat_pos | lra]).
  assert (HW0 : ~ W == 0) by (intros E; rewrite E in HW; apply (Qlt_irrefl 0 HW)).
  assert (HH0 : ~ H == 0) by (intros E; rewrite E in HH; apply (Qlt_irrefl 0 HH)).
  unfold fixed_size_subplots. fold W H. unfold plt_figure.
  assert (Hle : Qle_bool 0 W && Qle_bool 0 H = true).
  { apply andb_true_iff; split; apply Qle_bool_iff; by apply Qlt_le_weak. }
  rewrite Hle. simpl.
  rewrite (map_exc_ok _ (fun i => map (cell m h a b W H i) (seq 0 ncols))); [done |].
  intros i _. apply map_exc_ok. intros j _.
  unfold cell_rect. rewrite !py_div_ok by done. reflexivity.
Qed.

Lemma grid_lookup (nrows ncols : nat) (c : nat -> nat -> list Q) i j rect :
  map (fun i => map (c i) (seq 0 ncols)) (seq 0 nrows) !! i ≫= (.!! j) = Some rect <->
  (i < nrows)%nat /\ (j < ncols)%nat /\ rect = c i j.
Proof.
  rewrite list_lookup_fmap. destruct (decide (i < nrows)%nat) as [Hi|Hi].
  - rewrite lookup_seq_lt by done. simpl. rewrite list_lookup_fmap.
    destruct (decide (j < ncols)%nat) as [Hj|Hj].
    + rewrite lookup_seq_lt by done. simpl. split; [intros [= <-]; auto | intros (_ & _ & ->); done].
    + rewrite lookup_seq_ge by lia. simpl. split; [discriminate | lia].
  - rewrite lookup_seq_ge by lia. simpl. split; [discriminate | lia].
Qed.

Lemma QofNat_S n : QofNat (S n) == QofNat n + 1.
Proof. unfold QofNat. rewrite Nat2Z.inj_succ. unfold Z.succ. by rewrite inject_Z_plus. Qed.

Lemma QofNat_le i n : (i <= n)%nat -> QofNat i <= QofNat n.
Proof. intros H. unfold QofNat. rewrite <- Zle_Qle. lia. Qed.

Lemma QofNat_nonneg n : 0 <= QofNat n.
Proof. change 0 with (QofNat 0). apply QofNat_le. lia. Qed.

(** For positive counts, non-negative margins and positive panel sizes,
    every axes rectangle [[x, y, w, h]] added by [fixed_size_subplots]
    lies inside the figure: [0 <= x], [x + w <= 1], [0 <= y],
    [y + h <= 1]. *)
Theorem fixed_size_subplots_cells_inside (nrows ncols : nat) (m h b a : Q) :
  (0 < nrows)%nat -> (0 < ncols)%nat -> 0 <= m -> 0 <= h -> 0 < b -> 0 < a ->
  exists fig axarr,
    fixed_size_subplots nrows ncols m h b a = inr (fig, axarr) /\
    forall i j rect, axarr !! i ≫= (.!! j) = Some rect ->
      exists x y w hh, rect = [x; y; w; hh] /\
        0 <= x /\ x + w <= 1 /\ 0 <= y /\ y + hh <= 1.
Proof.
  intros Hr Hc Hm Hh Hb Ha.
  pose proof (fixed_size_subplots_grid nrows ncols m h b a Hr Hc Hm Hh Hb Ha) as Hgrid.
  simpl in Hgrid. eexists _, _. split; [exact Hgrid |].
  set (W := QofNat ncols * (m + b + m)). set (H := QofNat nrows * (h + a + h)).
  assert (HW : 0 < W) by (apply Qmult_lt_0_compat; [by apply QofNat_pos | lra]).
  assert (HH : 0 < H) by (apply Qmult_lt_0_compat; [by apply QofNat_pos | lra]).
  assert (HW0 : ~ W == 0) by (intros E; rewrite E in HW; apply (Qlt_irrefl 0 HW)).
  assert (HH0 : ~ H == 0) by (intros E; rewrite E in HH; apply (Qlt_irrefl 0 HH)).
  intros i j rect Hl. apply grid_lookup in Hl as (Hi & Hj & ->).
  unfold cell. eexists _, _, _, _. split; [reflexivity |].
  pose proof (QofNat_nonneg j) as Hj0.
  pose proof (QofNat_le (S j) ncols Hj) as Hj1. rewrite QofNat_S in Hj1.
  pose proof (QofNat_le (i + 1) nrows ltac:(lia)) as Hi1.
  pose proof (QofNat_le 1 (i + 1) ltac:(lia)) as Hi0. change (QofNat 1) with 1 in Hi0.
  assert (HjK : (QofNat j + 1) * (2 * m + b) <= QofNat ncols * (2 * m + b))
    by (apply Qmult_le_compat_r; lra).
  assert (HiK : QofNat (i + 1) * (2 * h + a) <= QofNat nrows * (2 * h + a))
    by (apply Qmult_le_compat_r; lra).
  assert (HiK1 : 1 * (2 * h + a) <= QofNat (i + 1) * (2 * h + a))
    by (apply Qmult_le_compat_r; lra).
  assert (HjK0 : 0 <= QofNat j * (2 * m + b)) by (apply Qmult_le_0_compat; lra).
  split; [| split; [| split]].
  - apply Qle_shift_div_l; [done | lra].
  - assert (E : (m + QofNat j * (2 * m + b)) / W + b / W
                 == (m + QofNat j * (2 * m + b) + b) / W) by (field; done).
    rewrite E. apply Qle_shift_div_r; [done | unfold W; lra].
  - apply Qle_shift_div_l; [done | unfold H; lra].
  - assert (E : (H - QofNat (i + 1) * (2 * h + a) + h) / H + a / H
                 == (H - QofNat (i + 1) * (2 * h + a) + h + a) / H) by (field; done).
    rewrite E. apply Qle_shift_div_r; [done | lra].
Qed.

Lemma fixed_size_subplots_cells_inside_witness :
  exists fig axarr,
    fixed_size_subplots 2 3 (1 # 2) (1 # 2) 2 (7 # 4) = inr (fig, axarr) /\
    forall i j rect, axarr !! i ≫= (.!! j) = Some rect ->
      exists x y w hh, rect = [x; y; w; hh] /\
        0 <= x /\ x + w <= 1 /\ 0 <= y /\ y + hh <= 1.
Proof.
  exact (fixed_size_subplots_cells_inside 2%nat 3%nat (1 # 2) (1 # 2) 2 (7 # 4)
           ltac:(lia) ltac:(lia) ltac:(vm_compute; discriminate)
           ltac:(vm_compute; discriminate) ltac:(vm_compute; reflexivity)
           ltac:(vm_compute; reflexivity)).
Defined.

(** Neighbouring axes are [2 * margin] apart horizontally and
    [2 * header] apart vertically, in figure fractions: the next column
    starts [2 * margin / width] after a panel ends, and the panel below
    ends [2 * header / height] under a panel's bottom edge. *)
Theorem fixed_size_subplots_gaps (nrows ncols : nat) (m h b a : Q) :
  (0 < nrows)%nat -> (0 < ncols)%nat -> 0 <= m -> 0 <= h -> 0 < b -> 0 < a ->
  exists fig axarr,
    fixed_size_subplots nrows ncols m h b a = inr (fig, axarr) /\
    (forall i j r1 r2, axarr !! i ≫= (.!! j) = Some r1 ->
       axarr !! i ≫= (.!! S j) = Some r2 ->
       nth 0 r2 0 - (nth 0 r1 0 + nth 2 r1 0) == 2 * m / fst (figsize fig)) /\
    (forall i j r1 r2, axarr !! i ≫= (.!! j) = Some r1 ->
       axarr !! S i ≫= (.!! j) = Some r2 ->
       nth 1 r1 0 - (nth 1 r2 0 + nth 3 r2 0) == 2 * h / snd (figsize fig)).
Proof.
  intros Hr Hc Hm Hh Hb Ha.
  pose proof (fixed_size_subplots_grid nrows ncols m h b a Hr Hc Hm Hh Hb Ha) as Hgrid.
  simpl in Hgrid. eexists _, _. split; [exact Hgrid |].
  set (W := QofNat ncols * (m + b + m)). set (H := QofNat nrows * (h + a + h)).
  assert (HW : 0 < W) by (apply Qmult_lt_0_compat; [by apply QofNat_pos | lra]).
  assert (HH : 0 < H) by (apply Qmult_lt_0_compat; [by apply QofNat_pos | lra]).
  assert (HW0 : ~ W == 0) by (intros E; rewrite E in HW; apply (Qlt_irrefl 0 HW)).
  assert (HH0 : ~ H == 0) by (intros E; rewrite E in HH; apply (Qlt_irrefl 0 HH)).
  cbn [figsize fst snd]. split.
  - intros i j r1 r2 H1 H2.
    apply grid_lookup in H1 as (_ & _ & ->). apply grid_lookup in H2 as (_ & _ & ->).
    unfold cell. simpl nth. rewrite QofNat_S. field. done.
  - intros i j r1 r2 H1 H2.
    apply grid_lookup in H1 as (_ & _ & ->). apply grid_lookup in H2 as (_ & _ & ->).
    unfold cell. simpl nth. replace (S i + 1)%nat with (S (i + 1)) by lia.
    rewrite QofNat_S. field. done.
Qed.

Lemma fixed_size_subplots_gaps_witness :
  exists fig axarr,
    fixed_size_subplots 2 3 (1 # 2) (1 # 2) 2 (7 # 4) = inr (fig, axarr) /\
    forall r1 r2, axarr !! 0%nat ≫= (.!! 0%nat) = Some r1 ->
      axarr !! 0%nat ≫= (.!! 1%nat) = Some r2 ->
      nth 0 r2 0 - (nth 0 r1 0 + nth 2 r1 0) == 2 * (1 # 2) / fst (figsize fig).
Proof.
  destruct (fixed_size_subplots_gaps 2%nat 3%nat (1 # 2) (1 # 2) 2 (7 # 4)
              ltac:(lia) ltac:(lia) ltac:(vm_compute; discriminate)
              ltac:(vm_compute; discriminate) ltac:(vm_compute; reflexivity)
              ltac:(vm_compute; reflexivity))
    as (fig & axarr & Hrun & Hx & _).
  exists fig, axarr. split; [exact Hrun |]. intros r1 r2. apply Hx.
Defined.

Local Close Scope Q_scope.

(** ** More on the science logger *)

(** Asking for a log file ([statistics] or [integrity] at [SAVE]) when
    nothing exists at [<dir>/<name>/stats] (and [<dir>/<name>] is not a
    file) makes the constructor raise [FileNotFoundError] from
    [stats_file.open("w")]; the [logging] logger of that
    name is left at level [INFO] with the console handler already
    attached, and no file is created. *)
Theorem ScienceLogger_missing_stats_dir (nm : string) (dir : path)
    (figures statistics integrity : Options) (w : world) :
  is_dir (w_fs w) dir = true ->
  opt_ge statistics SAVE || opt_ge integrity SAVE = true ->
  fs_files (w_fs w) !! (dir ++ [nm]) = None ->
  path_exists (w_fs w) (dir ++ [nm; "stats"]) = false ->
  path_exists (w_fs w) (dir ++ [nm; "stats"; nm +:+ "_stats.txt"]) = false ->
  exists w', ScienceLogger_init nm dir figures statistics integrity w
             = (w', inl FileNotFoundError) /\
    w_fs w' = w_fs w /\ w_levels w' !! nm = Some INFO /\
    handlers_of w' nm = handlers_of w nm ++ [StreamHandler INFO ScienceConsoleFormatter].
Proof.
  intros Hdir Hsave _ Hstats Hfile.
  assert (Hsd : is_dir (w_fs w) (dir ++ [nm; "stats"]) = false).
  { unfold path_exists in Hstats. apply orb_false_iff in Hstats as [H _]. exact H. }
  assert (Hpre : is_dir (w_fs w) dir && path_exists (w_fs w) dir = true).
  { unfold path_exists, is_dir in *. by rewrite Hdir. }
  assert (Hshow : existsb (fun o => opt_ge o SHOW) [figures; statistics; integrity] = true).
  { revert Hsave. destruct figures, statistics, integrity; simpl; done. }
  assert (Hpar : parent (dir ++ [nm; "stats"; nm +:+ "_stats.txt"]) = dir ++ [nm; "stats"]).
  { unfold parent.
    replace (dir ++ [nm; "stats"; nm +:+ "_stats.txt"])
      with ((dir ++ [nm; "stats"]) ++ [nm +:+ "_stats.txt"]) by by rewrite <- app_assoc.
    apply removelast_last. }
  assert (Hfd : is_dir (w_fs w) (dir ++ [nm; "stats"; nm +:+ "_stats.txt"]) = false).
  { unfold path_exists in Hfile. apply orb_false_iff in Hfile as [H _]. exact H. }
  unfold ScienceLogger_init. rewrite Hpre. simpl negb. cbv iota.
  rewrite Hshow. simpl existsb. rewrite orb_false_r, Hsave.
  unfold stats_file. cbn [name directory].
  rewrite fs_of_add. cbn [set_level w_fs]. rewrite Hfile.
  unfold open_write_empty. rewrite Hfd, Hpar, Hsd.
  eexists; split; [reflexivity |]. split; [done |]. split.
  - simpl. by rewrite lookup_insert_eq.
  - by rewrite handlers_of_add, handlers_of_set_level.
Qed.

(** A base directory [base] holding the run [run], without its stats
    directory. *)
Definition no_stats_world : world :=
  mkWorld (mkFs {[ ["base"]; ["base"; "run"] ]} ∅) ∅ ∅.

Lemma ScienceLogger_missing_stats_dir_witness :
  exists w', ScienceLogger_init "run" ["base"] SKIP SAVE SKIP no_stats_world
             = (w', inl FileNotFoundError) /\
    handlers_of w' "run" = [StreamHandler INFO ScienceConsoleFormatter].
Proof.
  destruct (ScienceLogger_missing_stats_dir "run" ["base"] SKIP SAVE SKIP no_stats_world
              ltac:(vm_compute; reflexivity) ltac:(vm_compute; reflexivity)
              ltac:(vm_compute; reflexivity) ltac:(vm_compute; reflexivity)
              ltac:(vm_compute; reflexivity))
    as (w' & Hrun & _ & _ & Hh).
  exists w'. split; [exact Hrun |]. rewrite Hh. reflexivity.
Defined.



(** ** [ListEnum.by_name] *)

Lemma upper_char_not_lower (c : ascii) : is_lower (upper_char c) = false.
Proof.
  unfold upper_char. destruct (is_lower c) eqn:E; [| exact E].
  unfold is_lower in *. apply andb_true_iff in E as [E1 E2].
  apply Nat.leb_le in E1. apply Nat.leb_le in E2.
  rewrite nat_ascii_embedding by lia.
  apply andb_false_iff. left. apply Nat.leb_gt. lia.
Qed.

Lemma has_lower_py_upper (s : string) : has_lower (py_upper s) = false.
Proof.
  induction s as [|c s IH]; [done |]. simpl. by rewrite upper_char_not_lower, IH.
Qed.

Lemma upper_char_idem (c : ascii) : upper_char (upper_char c) = upper_char c.
Proof.
  unfold upper_char at 1. by rewrite upper_char_not_lower.
Qed.

Lemma py_upper_idem (s : string) : py_upper (py_upper s) = py_upper s.
Proof.
  induction s as [|c s IH]; [done |]. simpl. by rewrite upper_char_idem, IH.
Qed.

Section ByName.
Context {V : Type}.

Lemma dict_get_filter_ne (d : list (string * (string * V))) (k key : string) :
  k ≠ key -> dict_get (filter (fun kv => kv.1 ≠ k) d) key = dict_get d key.
Proof.
  intros Hne. induction d as [|[k' m] rest IH]; [done |].
  rewrite filter_cons. simpl.
  destruct (decide (k' ≠ k)) as [Hk|Hk]; simpl.
  - by rewrite IH.
  - apply dec_stable in Hk. subst k'. by rewrite decide_False.
Qed.

(** [cls.by_name(name)] ignores case in [name] (for ASCII names), and a
    member name holding a lowercase letter is never found: removing the
    [__members__] entries under such a name does not change any result
    of [by_name]. *)
Theorem ListEnum_by_name_case (members_map : list (string * (string * V)))
    (name k : string) :
  ascii7 name = true -> has_lower k = true ->
  by_name members_map name = by_name members_map (py_upper name) /\
  by_name members_map name = by_name (filter (fun kv => kv.1 ≠ k) members_map) name.
Proof.
  intros _ Hk. unfold by_name. split.
  - by rewrite py_upper_idem.
  - symmetry. apply dict_get_filter_ne. intros ->.
    by rewrite has_lower_py_upper in Hk.
Qed.

End ByName.

(** [class Tone(ListEnum): RED = 1; blue = 2]. *)
Definition tone_members : list (string * (string * Z)) :=
  [("RED", ("RED", 1%Z)); ("blue", ("blue", 2%Z))].

Lemma ListEnum_by_name_case_witness :
  by_name tone_members "red" = Some ("RED", 1%Z) /\
  by_name tone_members "blue" = by_name [("RED", ("RED", 1%Z))] "blue" /\
  by_name tone_members "blue" = None.
Proof.
  destruct (ListEnum_by_name_case tone_members "blue" "blue" eq_refl eq_refl) as [_ H].
  split; [reflexivity |]. split; [exact H | reflexivity].
Defined.
